(** * glow-server: authentication, subscription registry, fan-out and sweeper

    A shallow embedding of the Lambda handlers (connect, nonce, subscribePrice,
    broadcast worker, TTL sweeper, price webhook) and of the Cloudflare edge
    worker with its [BroadcastRoom] durable object, followed by the
    properties of the fan-out core that hold (or fail) on that code.

    Conventions of the embedding:
    - a DynamoDB table is a finite map from the value of its hash key to the
      remaining attributes of the item, so a table holds at most one item per
      hash-key value, as DynamoDB does;
    - a Scan or Query carries its expression as the handler writes it; the
      store refuses an expression that writes a reserved word bare, before
      it reads the table;
    - every call that leaves the process (DynamoDB, API Gateway, SQS, fetch,
      a socket send) may throw; which calls throw is decided by an oracle of
      the environment record, and every attempted call is appended to a trace;
    - [Date.now()], [randomUUID()], the signature check and the text of a
      date are read from the environment record. *)

From Stdlib Require Import Strings.Ascii.
From stdpp Require Import gmap strings list fin_maps pretty.

(* ===================================================================== *)
(** ** JavaScript values used by the handlers *)
(* ===================================================================== *)

Module Js.

(** [!!v] for a value of type [string | undefined]. *)
Definition truthy (v : option string) : bool :=
  match v with
  | Some s => negb (bool_decide (s = ""))
  | None => false
  end.

(** [a || b] on [string | undefined]. *)
Definition or (a b : option string) : option string :=
  if truthy a then a else b.

(** [o?.k] on an optional string-keyed object. *)
Definition field (o : option (gmap string string)) (k : string) : option string :=
  o ≫= (λ m, m !! k).

(** [s.startsWith(p)]. *)
Definition startsWith (s p : string) : bool := String.prefix p s.

(** [hay.includes(needle)]. *)
Fixpoint includes (hay needle : string) : bool :=
  String.prefix needle hay
  || match hay with
     | EmptyString => false
     | String _ rest => includes rest needle
     end.

(** [s.split(sep)] for a one-character separator. *)
Fixpoint split (sep : Ascii.ascii) (s : string) : list string :=
  match s with
  | EmptyString => [EmptyString]
  | String c rest =>
      if bool_decide (c = sep) then EmptyString :: split sep rest
      else match split sep rest with
           | piece :: pieces => String c piece :: pieces
           | [] => [String c EmptyString]
           end
  end.

(** A parsed JSON value. Number literals are kept as text: the handlers
    only pass them on. *)
#[local] Unset Elimination Schemes.
Inductive Json :=
| JNull
| JBool (b : bool)
| JNum (literal : string)
| JStr (s : string)
| JArr (elements : list Json)
| JObj (fields : gmap string Json).
#[local] Set Elimination Schemes.

(** [v.k] where [v] is a parsed value; [None] is [undefined]. *)
Definition prop (v : Json) (k : string) : option Json :=
  match v with
  | JObj fields => fields !! k
  | _ => None
  end.

End Js.

(* ===================================================================== *)
(** ** DynamoDB tables (sst.config.ts) *)
(* ===================================================================== *)

Module Dynamo.

Inductive AttrValue :=
| AttrS (s : string)
| AttrN (n : Z).

#[export] Instance AttrValue_eq_dec : EqDecision AttrValue.
Proof. solve_decision. Defined.

(** An item (or a key) is a JavaScript object of attributes. *)
Abbreviation Item := (gmap string AttrValue).

(** The three tables with a [ttl] attribute. *)
Inductive TableRef :=
| PriceConnectionsTable
| BalanceConnectionsTable
| WebsocketNonceTable.

#[export] Instance TableRef_eq_dec : EqDecision TableRef.
Proof. solve_decision. Defined.

(** [primaryIndex: { hashKey: ... }] of each table. *)
Definition hashKey (t : TableRef) : string :=
  match t with
  | PriceConnectionsTable => "connectionId"
  | BalanceConnectionsTable => "connectionId"
  | WebsocketNonceTable => "wallet"
  end.

(** A table maps a hash-key value to the other attributes of its item. *)
Abbreviation Table := (gmap string Item).

Record DB := mkDB {
  priceConnections : Table;
  balanceConnections : Table;
  websocketNonces : Table;
}.

Definition table (t : TableRef) (d : DB) : Table :=
  match t with
  | PriceConnectionsTable => priceConnections d
  | BalanceConnectionsTable => balanceConnections d
  | WebsocketNonceTable => websocketNonces d
  end.

Definition set_table (t : TableRef) (tb : Table) (d : DB) : DB :=
  match t with
  | PriceConnectionsTable => mkDB tb (balanceConnections d) (websocketNonces d)
  | BalanceConnectionsTable => mkDB (priceConnections d) tb (websocketNonces d)
  | WebsocketNonceTable => mkDB (priceConnections d) (balanceConnections d) tb
  end.

(** The item as a reader sees it: the stored attributes and the hash key. *)
Definition item_of (t : TableRef) (k : string) (attrs : Item) : Item :=
  <[hashKey t := AttrS k]> attrs.

(** The hash-key value of a [Key: {...}] object; [None] when the object is
    not exactly the table's key schema (DynamoDB rejects the request). *)
Definition key_value (t : TableRef) (key : Item) : option string :=
  match map_to_list key with
  | [(a, AttrS k)] => if bool_decide (a = hashKey t) then Some k else None
  | _ => None
  end.

(** The hash-key value of an [Item: {...}] object to be put. *)
Definition item_key (t : TableRef) (item : Item) : option string :=
  match item !! hashKey t with
  | Some (AttrS k) => Some k
  | _ => None
  end.

(** *** Expressions

    A filter or key-condition expression, as a handler writes it. An
    attribute is written bare or through a [#placeholder] of
    [ExpressionAttributeNames]; a value is a [:placeholder] of
    [ExpressionAttributeValues]. *)
Inductive Operand :=
| Bare (name : string)
| NamePlaceholder (placeholder : string)
| ValuePlaceholder (placeholder : string).

Inductive Expression :=
| Equal (a b : Operand)                (* a = b *)
| Less (a b : Operand)                 (* a < b *)
| AttributeExists (path : Operand)     (* attribute_exists(path) *)
| And (e1 e2 : Expression).            (* e1 AND e2 *)

#[export] Instance Operand_eq_dec : EqDecision Operand.
Proof. solve_decision. Defined.
#[export] Instance Expression_eq_dec : EqDecision Expression.
Proof. solve_decision. Defined.

(** The reserved words of DynamoDB among the attribute names of this
    repository: [TIMESTAMP], [TOKEN] and [TTL] are on the documented list,
    [connectionId], [wallet] and [nonce] are not. The handlers that use
    [timestamp] and [token] in an expression elsewhere in the repository
    write them as [#ts] and [#token]. *)
Definition reserved (name : string) : bool :=
  bool_decide (name ∈ ["timestamp"; "token"; "ttl"]).

Definition operand_accepted (names : gmap string string) (values : Item) (o : Operand) : bool :=
  match o with
  | Bare name => negb (reserved name)
  | NamePlaceholder placeholder => bool_decide (is_Some (names !! placeholder))
  | ValuePlaceholder placeholder => bool_decide (is_Some (values !! placeholder))
  end.

(** The store accepts the expression: no reserved word is written bare and
    every placeholder is defined. Otherwise the request is refused with a
    [ValidationException], whatever the table holds. *)
Fixpoint accepted (names : gmap string string) (values : Item) (e : Expression) : bool :=
  match e with
  | Equal a b | Less a b =>
      operand_accepted names values a && operand_accepted names values b
  | AttributeExists path => operand_accepted names values path
  | And e1 e2 => accepted names values e1 && accepted names values e2
  end.

Definition operand_value (names : gmap string string) (values : Item) (item : Item)
    (o : Operand) : option AttrValue :=
  match o with
  | Bare name => item !! name
  | NamePlaceholder placeholder => names !! placeholder ≫= (λ name, item !! name)
  | ValuePlaceholder placeholder => values !! placeholder
  end.

(** The value of an accepted expression on an item. A comparison with an
    absent attribute, or between values of different types, is false. *)
Fixpoint holds (names : gmap string string) (values : Item) (item : Item)
    (e : Expression) : bool :=
  match e with
  | Equal a b =>
      match operand_value names values item a, operand_value names values item b with
      | Some x, Some y => bool_decide (x = y)
      | _, _ => false
      end
  | Less a b =>
      match operand_value names values item a, operand_value names values item b with
      | Some (AttrN x), Some (AttrN y) => bool_decide (x < y)%Z
      | Some (AttrS x), Some (AttrS y) => String.ltb x y
      | _, _ => false
      end
  | AttributeExists path => bool_decide (is_Some (operand_value names values item path))
  | And e1 e2 => holds names values item e1 && holds names values item e2
  end.

(** Requests a handler can send. [OpScan] carries the index of the page. *)
Inductive Op :=
| OpGet (t : TableRef) (key : Item)
| OpPut (t : TableRef) (item : Item)
| OpDelete (t : TableRef) (key : Item)
| OpQuery (t : TableRef) (index : string) (keyCondition : Expression) (values : Item)
| OpScan (t : TableRef) (filter : Expression) (values : Item) (page : nat).

(** [GetCommand]: the item under the key, if any. *)
Definition get (t : TableRef) (k : string) (d : DB) : option Item :=
  item_of t k <$> table t d !! k.

(** [PutCommand]: replaces whatever item has the same hash key. *)
Definition put (t : TableRef) (k : string) (item : Item) (d : DB) : DB :=
  set_table t (<[k := delete (hashKey t) item]> (table t d)) d.

(** [DeleteCommand]: removes the item; no error when it is absent. *)
Definition delete_item (t : TableRef) (k : string) (d : DB) : DB :=
  set_table t (delete k (table t d)) d.

(** The rows of a table, as items. *)
Definition rows (t : TableRef) (d : DB) : list Item :=
  (λ kv, item_of t kv.1 kv.2) <$> map_to_list (table t d).

(** What a global index whose hash key is [attr] lists under [value]. *)
Definition query (t : TableRef) (attr value : string) (d : DB) : list Item :=
  filter (λ item, item !! attr = Some (AttrS value)) (rows t d).

(** The rows an accepted expression selects. *)
Definition select (t : TableRef) (names : gmap string string) (values : Item)
    (e : Expression) (d : DB) : list Item :=
  filter (λ item, holds names values item e = true) (rows t d).

End Dynamo.

(* ===================================================================== *)
(** ** The Lambda runtime: state, trace and exceptions *)
(* ===================================================================== *)

Module Lambda.
Import Dynamo.

Inductive Error :=
| ServiceError        (* a store or transport call failed *)
| ValidationException (* DynamoDB refused the request *)
| SyntaxError         (* JSON.parse *)
| ZodError            (* schema.parse *)
| TypeError
| RangeError          (* Date.prototype.toISOString on an invalid date *)
| SendError (statusCode : option Z). (* PostToConnection failed *)

#[export] Instance Error_eq_dec : EqDecision Error.
Proof. solve_decision. Defined.

(** The body of a message on the broadcast queue. *)
Record QueueBody := mkQueueBody {
  connectionIds : option (list string);
  message : Js.Json;
}.

(** What a handler does to the outside, in program order. *)
Inductive Effect :=
| Ddb (op : Op)
| VerifySignature (message signature wallet : string)
| PostToConnection (connectionId : string) (data : Js.Json)
| TimeSeriesPut (item : Js.Json)
| Fetch (url authorization : string) (body : Js.Json)
| SqsSend (body : QueueBody)
| ConsoleLog (line : string)
| ConsoleError (line : string).

Record World := mkWorld {
  db : DB;
  queue : list QueueBody; (* BroadcastQueue, oldest first *)
  trace : list Effect;
}.

Inductive VerifyOutcome :=
| Verified      (* nacl.sign.detached.verify returned true *)
| NotVerified   (* it returned false *)
| VerifyThrew.  (* PublicKey, Buffer.from or verify threw *)

(** The collaborators of the handlers. *)
Record Env := mkEnv {
  (** DynamoDB calls that throw (throttling, outage). *)
  ddb_fails : Op → bool;
  (** [new PublicKey(wallet)], [Buffer.from(signature, "base64")],
      [TextEncoder.encode(message)] and [nacl.sign.detached.verify]. *)
  verify : string → string → string → VerifyOutcome;
  (** [PostToConnectionCommand]: [None] when the send succeeds, else the
      [statusCode] of the error thrown. *)
  post_error : string → Js.Json → option (option Z);
  (** [Date.now()], in milliseconds. *)
  now_ms : Z;
  (** [randomUUID()]. *)
  randomUUID : string;
  (** [Resource.<Table>.name]. *)
  table_name : TableRef → string;
  (** How a paginated Scan of a table splits it: the hash keys evaluated by
      each page, in order. A page left unfinished returns a
      [LastEvaluatedKey]; the last one does not. *)
  scan_pages : TableRef → list (list string);
}.

Inductive Result (A : Type) :=
| Ok (a : A)
| Thrown (e : Error).
Arguments Ok {A} a.
Arguments Thrown {A} e.

Definition M (A : Type) : Type := World → Result A * World.

Definition ret {A} (a : A) : M A := λ w, (Ok a, w).

Definition bind {A B} (m : M A) (k : A → M B) : M B :=
  λ w, match m w with
       | (Ok a, w') => k a w'
       | (Thrown e, w') => (Thrown e, w')
       end.

Definition throw {A} (e : Error) : M A := λ w, (Thrown e, w).

(** [try { m } catch (error) { h error }]. *)
Definition try_catch {A} (m : M A) (h : Error → M A) : M A :=
  λ w, match m w with
       | (Ok a, w') => (Ok a, w')
       | (Thrown e, w') => h e w'
       end.

Definition emit (e : Effect) : M unit :=
  λ w, (Ok tt, mkWorld (db w) (queue w) (trace w ++ [e])).

(** A handler invocation: the trace starts empty. *)
Definition invoke {A} (m : M A) (d : DB) : Result A * World := m (mkWorld d [] []).

Definition read_db : M DB := λ w, (Ok (db w), w).

Definition write_db (d : DB) : M unit := λ w, (Ok tt, mkWorld d (queue w) (trace w)).

#[export] Instance M_ret : MRet M := @ret.
#[export] Instance M_bind : MBind M := λ A B k m, bind m k.

(** [await client.send(command)]: the call is attempted, then it either
    throws or takes effect. *)
Definition send {A} (env : Env) (op : Op) (run : DB → Result A * DB) : M A :=
  emit (Ddb op) ;;
  if ddb_fails env op then throw ServiceError
  else d ← read_db;
       match run d with
       | (Ok a, d') => write_db d' ;; ret a
       | (Thrown e, _) => throw e
       end.

Definition GetCommand (env : Env) (t : TableRef) (key : Item) : M (option Item) :=
  send env (OpGet t key) (λ d,
    match key_value t key with
    | Some k => (Ok (get t k d), d)
    | None => (Thrown ValidationException, d)
    end).

Definition PutCommand (env : Env) (t : TableRef) (item : Item) : M unit :=
  send env (OpPut t item) (λ d,
    match item_key t item with
    | Some k => (Ok tt, put t k item d)
    | None => (Thrown ValidationException, d)
    end).

Definition DeleteCommand (env : Env) (t : TableRef) (key : Item) : M unit :=
  send env (OpDelete t key) (λ d,
    match key_value t key with
    | Some k => (Ok tt, delete_item t k d)
    | None => (Thrown ValidationException, d)
    end).

(** [QueryCommand] on a global index, with its [KeyConditionExpression],
    [ExpressionAttributeNames] and [ExpressionAttributeValues]. *)
Definition QueryCommand (env : Env) (t : TableRef) (index : string)
    (keyCondition : Expression) (names : gmap string string) (values : Item)
    : M (list Item) :=
  send env (OpQuery t index keyCondition values) (λ d,
    if accepted names values keyCondition
    then (Ok (select t names values keyCondition d), d)
    else (Thrown ValidationException, d)).

(** One page of a [ScanCommand] with a filter: the items of the page that
    are still in the table and pass the filter. *)
Definition scan_page (t : TableRef) (names : gmap string string) (values : Item)
    (filterExpression : Expression) (page : list string) (d : DB) : list Item :=
  filter (λ item, holds names values item filterExpression = true)
         (omap (λ k, get t k d) page).

(** [ScanCommand] with its [FilterExpression], [ExpressionAttributeNames]
    and [ExpressionAttributeValues]. *)
Definition ScanCommand (env : Env) (t : TableRef) (filterExpression : Expression)
    (names : gmap string string) (values : Item) (index : nat) (page : list string)
    : M (list Item) :=
  send env (OpScan t filterExpression values index) (λ d,
    if accepted names values filterExpression
    then (Ok (scan_page t names values filterExpression page d), d)
    else (Thrown ValidationException, d)).

(** [await apiClient.send(new PostToConnectionCommand(...))]. *)
Definition PostToConnectionCommand (env : Env) (connectionId : string) (data : Js.Json) : M unit :=
  emit (PostToConnection connectionId data) ;;
  match post_error env connectionId data with
  | None => ret tt
  | Some statusCode => throw (SendError statusCode)
  end.

(** The response of an API Gateway handler. *)
Inductive Body :=
| ErrorBody (error : string)
| MessageBody (message : string)
| NonceBody (wallet nonce : string) (expiresAt : Z)
| StatusBody (status : string).

Record Response := mkResponse {
  statusCode : Z;
  body : Body;
}.

#[export] Instance Body_eq_dec : EqDecision Body.
Proof. solve_decision. Defined.
#[export] Instance Response_eq_dec : EqDecision Response.
Proof. solve_decision. Defined.

End Lambda.

(* ===================================================================== *)
(** ** Nonce issuer (the [GET /login/nonce] handler) *)
(* ===================================================================== *)

Module Nonce.
Import Dynamo Lambda.

Record Event := mkEvent {
  queryStringParameters : option (gmap string string);
}.

Definition handler (env : Env) (event : Event) : M Response :=
  try_catch
    (let wallet := Js.field (queryStringParameters event) "wallet" in
     match wallet with
     | Some wallet =>
         if bool_decide (wallet = "") then
           ret (mkResponse 400 (ErrorBody "wallet parameter is required"))
         else
           let nonce := randomUUID env in
           let expiresAt := (now_ms env `div` 1000 + 600)%Z in (* 10 minutes *)
           PutCommand env WebsocketNonceTable
             {[ "wallet" := AttrS wallet; "nonce" := AttrS nonce; "ttl" := AttrN expiresAt ]} ;;
           ret (mkResponse 200 (NonceBody wallet nonce (expiresAt * 1000)))
     | None => ret (mkResponse 400 (ErrorBody "wallet parameter is required"))
     end)
    (λ _,
       emit (ConsoleError "Error generating nonce:") ;;
       ret (mkResponse 500 (ErrorBody "Internal server error"))).

End Nonce.

(* ===================================================================== *)
(** ** Connection authenticator (source/websocket/connect.ts) *)
(* ===================================================================== *)

Module Connect.
Import Dynamo Lambda.

Record Event := mkEvent {
  connectionId : string;
  headers : option (gmap string string);
  queryStringParameters : option (gmap string string);
}.

(** The [try] block around the signature check: [Some r] when the block
    returns [r] from the handler, [None] when it falls through. *)
Definition verify_signature (env : Env) (wallet signature message : string)
    : M (option Response) :=
  try_catch
    (emit (VerifySignature message signature wallet) ;;
     match verify env message signature wallet with
     | Verified => ret None
     | NotVerified => ret (Some (mkResponse 401 (ErrorBody "Invalid signature")))
     | VerifyThrew => throw TypeError
     end)
    (λ _,
       emit (ConsoleError "Signature verification error:") ;;
       ret (Some (mkResponse 401 (ErrorBody "Invalid signature format")))).

(** [event.headers?.<name> || event.queryStringParameters?.<name>]. *)
Definition param (event : Event) (name : string) : option string :=
  Js.or (Js.field (headers event) name) (Js.field (queryStringParameters event) name).

Definition handler (env : Env) (event : Event) : M Response :=
  try_catch
    ((* Extract wallet and signature from headers *)
     let wallet := param event "wallet" in
     let signature := param event "signature" in
     let message := param event "message" in
     if negb (Js.truthy wallet) || negb (Js.truthy signature) || negb (Js.truthy message) then
       ret (mkResponse 401 (ErrorBody "Missing authentication parameters"))
     else
       match wallet, signature, message with
       | Some wallet, Some signature, Some message =>
           (* Get nonce from database *)
           nonceResult ← GetCommand env WebsocketNonceTable {[ "wallet" := AttrS wallet ]};
           match nonceResult with
           | None => ret (mkResponse 401 (ErrorBody "Invalid or expired nonce"))
           | Some item =>
               if negb (bool_decide (item !! "nonce" = Some (AttrS message))) then
                 ret (mkResponse 401 (ErrorBody "Invalid or expired nonce"))
               else
                 (* Verify signature *)
                 early ← verify_signature env wallet signature message;
                 match early with
                 | Some response => ret response
                 | None =>
                     (* Delete used nonce *)
                     DeleteCommand env WebsocketNonceTable {[ "wallet" := AttrS wallet ]} ;;
                     (* Connection successful *)
                     emit (ConsoleLog ("WebSocket connected: " +:+ connectionId event
                                       +:+ " for wallet: " +:+ wallet)) ;;
                     ret (mkResponse 200 (MessageBody "Connected"))
                 end
           end
       | _, _, _ => throw TypeError (* not reached: the three are truthy *)
       end)
    (λ _,
       emit (ConsoleError "Connection error:") ;;
       ret (mkResponse 500 (ErrorBody "Internal server error"))).

End Connect.

(* ===================================================================== *)
(** ** Subscription registry, write side (the [subscribePrice] handler) *)
(* ===================================================================== *)

Module SubscribePrice.
Import Dynamo Lambda.

(** [event.body], as [JSON.parse] will see it. *)
Inductive RawBody :=
| NoBody                 (* undefined or empty: replaced by the text of [{}] *)
| Malformed              (* not JSON *)
| Parsed (j : Js.Json).

Record Event := mkEvent {
  connectionId : string;
  body : RawBody;
}.

(** [JSON.parse(event.body || "{}")]. *)
Definition parse_body (b : RawBody) : M Js.Json :=
  match b with
  | NoBody => ret (Js.JObj ∅)
  | Malformed => throw SyntaxError
  | Parsed j => ret j
  end.

(** [SubscribePriceSchema.parse]: an object whose [token] is a string of
    length at least 1. *)
Definition SubscribePriceSchema_parse (body : Js.Json) : M string :=
  match Js.prop body "token" with
  | Some (Js.JStr token) =>
      if bool_decide (token = "") then throw ZodError else ret token
  | _ => throw ZodError
  end.

Definition confirmationMessage (token : string) : Js.Json :=
  Js.JObj {[ "type" := Js.JStr "SUBSCRIPTION_CONFIRMED";
             "subscription" := Js.JStr "price";
             "token" := Js.JStr token;
             "message" := Js.JStr ("Subscribed to price updates for " +:+ token) ]}.

Definition errorPayload (errorMessage : string) : Js.Json :=
  Js.JObj {[ "type" := Js.JStr "ERROR";
             "code" := Js.JStr "SUBSCRIPTION_FAILED";
             "message" := Js.JStr errorMessage ]}.

Definition handler (env : Env) (event : Event) : M Response :=
  let connectionId := connectionId event in
  try_catch
    ((* Parse and validate request *)
     body ← parse_body (body event);
     token ← SubscribePriceSchema_parse body;
     emit (ConsoleLog ("Subscribing " +:+ connectionId +:+ " to price updates for " +:+ token)) ;;
     (* Calculate TTL (1 hour from now) *)
     let ttl := (now_ms env `div` 1000 + 3600)%Z in
     (* Store subscription in DynamoDB *)
     PutCommand env PriceConnectionsTable
       {[ "connectionId" := AttrS connectionId; "token" := AttrS token; "ttl" := AttrN ttl ]} ;;
     (* Send confirmation message *)
     PostToConnectionCommand env connectionId (confirmationMessage token) ;;
     ret (mkResponse 200 (MessageBody "Subscribed successfully")))
    (λ error,
       emit (ConsoleError "Subscribe price error:") ;;
       let errorMessage :=
         if bool_decide (error = ZodError) then "Invalid request: token is required"
         else "Subscription failed" in
       (* Try to send error message to client *)
       try_catch
         (PostToConnectionCommand env connectionId (errorPayload errorMessage))
         (λ _, emit (ConsoleError "Failed to send error message:")) ;;
       ret (mkResponse 400 (ErrorBody errorMessage))).

End SubscribePrice.

(* ===================================================================== *)
(** ** Queue-decoupled fan-out (source/workers/broadcast.ts) *)
(* ===================================================================== *)

Module BroadcastWorker.
Import Dynamo Lambda.

Record SQSRecord := mkRecord {
  (** [JSON.parse(record.body)]; [None] when the body is not JSON. *)
  body : option QueueBody;
}.

(** [resolveSubscribers]: the [byToken] query and the projection on
    [connectionId]. *)
Definition connectionIds_of (items : list Item) : list string :=
  omap (λ item : Item, match item !! "connectionId" with
                       | Some (AttrS c) => Some c
                       | _ => None
                       end) items.

(** [KeyConditionExpression: "token = :token"]; the command carries no
    [ExpressionAttributeNames]. *)
Definition keyConditionExpression : Expression :=
  Equal (Bare "token") (ValuePlaceholder ":token").

Definition resolveSubscribers (env : Env) (message : Js.Json) : M (list string) :=
  match Js.prop message "token" with
  | Some (Js.JStr token) =>
      (* Query connections subscribed to this token *)
      items ← QueryCommand env PriceConnectionsTable "byToken" keyConditionExpression ∅
                {[ ":token" := AttrS token ]};
      ret (connectionIds_of items)
  | _ => throw ValidationException
  end.

(** The text of [message.token] in a log line. *)
Definition token_text (message : Js.Json) : string :=
  match Js.prop message "token" with
  | Some (Js.JStr token) => token
  | _ => "undefined"
  end.

(** One element of [targetConnectionIds.map(async (connectionId) => ...)]. *)
Definition deliver (env : Env) (message : Js.Json) (connectionId : string) : M unit :=
  try_catch
    (PostToConnectionCommand env connectionId message ;;
     emit (ConsoleLog ("Sent message to connection " +:+ connectionId)))
    (λ error,
       if bool_decide (error = SendError (Some 410%Z)) then
         (* Connection is stale, should be cleaned up *)
         emit (ConsoleLog ("Stale connection detected: " +:+ connectionId))
         (* In production, you would delete this from the connections table *)
       else
         emit (ConsoleError ("Failed to send to " +:+ connectionId +:+ ":"))).

(** [targetConnectionIds.map(...)] and [Promise.allSettled]: one send per
    connection, started in the order of the list. The callbacks are run
    here one after the other; in the handler the lines they log may
    interleave differently. *)
Fixpoint deliver_all (env : Env) (message : Js.Json) (targets : list string) : M unit :=
  match targets with
  | [] => ret tt
  | connectionId :: rest => deliver env message connectionId ;; deliver_all env message rest
  end.

Definition process_record (env : Env) (record : SQSRecord) : M unit :=
  try_catch
    (match body record with
     | None => throw SyntaxError
     | Some parsed =>
         let message := message parsed in
         (* If no specific connection IDs provided, query them based on the token *)
         targetConnectionIds ←
           match connectionIds parsed with
           | Some (c :: cs) => ret (c :: cs)
           | _ => resolveSubscribers env message
           end;
         match targetConnectionIds with
         | [] => emit (ConsoleLog ("No connections found for token " +:+ token_text message))
         | _ =>
             (* Send message to all connected clients; wait for all of them *)
             deliver_all env message targetConnectionIds
         end
     end)
    (λ error,
       emit (ConsoleError "Error processing SQS message:") ;;
       throw error).

Fixpoint handler (env : Env) (records : list SQSRecord) : M unit :=
  match records with
  | [] => ret tt
  | record :: rest => process_record env record ;; handler env rest
  end.

End BroadcastWorker.

(* ===================================================================== *)
(** ** Expiry sweeper (the scheduled TTL job) *)
(* ===================================================================== *)

Module Sweeper.
Import Dynamo Lambda.

Record SweepTable := mkSweepTable {
  resource : TableRef;
  name : string;
  description : string;
}.

(** Tables to sweep. *)
Definition tablesToSweep (env : Env) : list SweepTable :=
  [ mkSweepTable PriceConnectionsTable (table_name env PriceConnectionsTable) "Price connections";
    mkSweepTable BalanceConnectionsTable (table_name env BalanceConnectionsTable) "Balance connections";
    mkSweepTable WebsocketNonceTable (table_name env WebsocketNonceTable) "WebSocket nonces" ].

(** [FilterExpression: "ttl < :now AND attribute_exists(ttl)"]; the command
    carries no [ExpressionAttributeNames]. *)
Definition filterExpression : Expression :=
  And (Less (Bare "ttl") (ValuePlaceholder ":now")) (AttributeExists (Bare "ttl")).

(** [key.<attr> = item.<attr>]; an undefined value leaves the key empty. *)
Definition key_from (item : Item) (attr : string) : Item :=
  match item !! attr with
  | Some v => {[ attr := v ]}
  | None => ∅
  end.

(** Determine the key based on table. *)
Definition key_for (table : SweepTable) (item : Item) : Item :=
  if Js.includes (name table) "PriceConnections"
     || Js.includes (name table) "BalanceConnections" then
    key_from item "connectionId"
  else if Js.includes (name table) "WebsocketNonce" then
    key_from item "wallet"
  else ∅.

(** [for (const item of scanResult.Items) { try { ... } catch { ... } }]. *)
Fixpoint delete_items (env : Env) (table : SweepTable) (items : list Item)
    (deletedCount : nat) : M nat :=
  match items with
  | [] => ret deletedCount
  | item :: rest =>
      deletedCount ←
        try_catch
          (DeleteCommand env (resource table) (key_for table item) ;;
           ret (S deletedCount))
          (λ _,
             emit (ConsoleError ("Error deleting item from " +:+ name table +:+ ":")) ;;
             ret deletedCount);
      delete_items env table rest deletedCount
  end.

(** The [do { ... } while (lastEvaluatedKey)] loop. [page] is the page the
    next Scan evaluates and [later] the pages after it: the Scan returns a
    [LastEvaluatedKey] exactly when [later] is not empty. *)
Fixpoint sweep_pages (env : Env) (table : SweepTable) (now : Z)
    (index : nat) (page : list string) (later : list (list string))
    (deletedCount : nat) : M nat :=
  (* Scan for expired items *)
  items ← ScanCommand env (resource table) filterExpression ∅ {[ ":now" := AttrN now ]}
            index page;
  (* Delete expired items *)
  deletedCount ← delete_items env table items deletedCount;
  match later with
  | [] => ret deletedCount
  | next :: later' => sweep_pages env table now (S index) next later' deletedCount
  end.

(** The body of [for (const table of tablesToSweep)]. *)
Definition sweep_table (env : Env) (now : Z) (table : SweepTable) : M unit :=
  try_catch
    (emit (ConsoleLog ("Sweeping " +:+ description table +:+ "...")) ;;
     deletedCount ←
       match scan_pages env (resource table) with
       | [] => sweep_pages env table now 0 [] [] 0
       | page :: later => sweep_pages env table now 0 page later 0
       end;
     emit (ConsoleLog ("Deleted " +:+ pretty deletedCount +:+ " expired items from "
                       +:+ description table)))
    (λ _, emit (ConsoleError ("Error sweeping " +:+ description table +:+ ":"))).

Fixpoint sweep_tables (env : Env) (now : Z) (tables : list SweepTable) : M unit :=
  match tables with
  | [] => ret tt
  | table :: rest => sweep_table env now table ;; sweep_tables env now rest
  end.

Definition handler (env : Env) : M unit :=
  let now := (now_ms env `div` 1000)%Z in
  emit (ConsoleLog "Starting TTL sweeper job") ;;
  sweep_tables env now (tablesToSweep env) ;;
  emit (ConsoleLog "TTL sweeper job completed").

End Sweeper.

(* ===================================================================== *)
(** ** Publisher (the price webhook) and its choice of engine *)
(* ===================================================================== *)

Module PriceWebhook.
Import Dynamo Lambda.

Record Account := mkAccount {
  address : string;
  nativeBalanceChange : string; (* a number, as written in the payload *)
}.

(** A body accepted by [HeliusPriceWebhookSchema]. Numbers are kept as
    written. *)
Record Payload := mkPayload {
  type : string;
  accounts : list Account;
  txSignature : string;
  slot : string;
  timestamp : string;
}.

(** [event.body], as [JSON.parse] and the schema will see it. *)
Inductive RawBody :=
| Malformed                (* JSON.parse throws *)
| Invalid                  (* parsed, refused by the schema; so is a missing body *)
| Valid (payload : Payload).

Record Event := mkEvent {
  headers : gmap string string;
  body : RawBody;
}.

Inductive FetchOutcome :=
| FetchThrew
| FetchResponse (ok : bool) (status : Z) (text : option string). (* [None]: text() throws *)

(** What [SendMessageBatchCommand] does with its one entry. *)
Inductive SqsOutcome :=
| SqsThrew        (* the call throws *)
| SqsSuccessful   (* the entry is under [Successful]: the message is queued *)
| SqsFailed.      (* the call returns with the entry under [Failed] *)

(** Deployment settings and collaborators of the publisher. *)
Record Publisher := mkPublisher {
  HeliusApiKey : string;
  USE_EDGE_BROADCAST : option string;
  EDGE_BROADCAST_URL : option string;
  EDGE_BROADCAST_SECRET : option string;
  (** [calculatePrice]: floating-point arithmetic on the balance changes;
      its result is carried as an opaque number. *)
  calculatePrice : list Account → string;
  (** The [YYYYMMDD] text of [new Date(timestamp * 1000).toISOString()];
      [None] when the time value is outside the range of [Date] and
      [toISOString] throws a [RangeError]. *)
  dateStr : string → option string;
  (** The write to [PriceTimeSeriesTable] throws. *)
  timeseries_fails : bool;
  (** [fetch(url, { headers: { Authorization }, body })]. *)
  fetch : string → string → Js.Json → FetchOutcome;
  (** The outcome of the n-th [sqsClient.send] of the invocation. *)
  sqs_send : nat → SqsOutcome;
}.

Definition is_SqsSend (e : Effect) : bool :=
  match e with
  | SqsSend _ => true
  | _ => false
  end.

Definition sends_so_far (tr : list Effect) : nat :=
  length (filter (λ e, is_SqsSend e = true) tr).

(** Helper function to broadcast via SQS. *)
Definition broadcastViaSQS (pub : Publisher) (message : Js.Json) : M unit :=
  (* connectionIds: [] -- would be populated from PriceConnectionsTable *)
  let entry := mkQueueBody (Some []) message in
  λ w,
    let attempt := sends_so_far (trace w) in
    let w' := mkWorld (db w) (queue w) (trace w ++ [SqsSend entry]) in
    match sqs_send pub attempt with
    | SqsThrew => (Thrown ServiceError, w')
    | SqsSuccessful => (Ok tt, mkWorld (db w') (queue w' ++ [entry]) (trace w'))
    | SqsFailed => (Ok tt, w') (* the result of the call is not read *)
    end.

Definition broadcastMessage (token price : string) (payload : Payload) : Js.Json :=
  Js.JObj {[ "type" := Js.JStr "PRICE_UPDATE";
             "token" := Js.JStr token;
             "price" := Js.JNum price;
             "timestamp" := Js.JNum (timestamp payload);
             "slot" := Js.JNum (slot payload);
             "txSignature" := Js.JStr (txSignature payload) ]}.

(** Lines 106-137: the engine choice and its fallback. *)
Definition broadcast (pub : Publisher) (token : string) (message : Js.Json) : M unit :=
  (* Check if we should use edge broadcast *)
  let useEdgeBroadcast := bool_decide (USE_EDGE_BROADCAST pub = Some "true") in
  match EDGE_BROADCAST_URL pub, EDGE_BROADCAST_SECRET pub with
  | Some url, Some secret =>
      if useEdgeBroadcast && Js.truthy (Some url) && Js.truthy (Some secret) then
        (* Call Cloudflare edge worker *)
        try_catch
          (let edgeUrl := url +:+ "/broadcast/" +:+ token in
           let authorization := "Bearer " +:+ secret in
           emit (Fetch edgeUrl authorization message) ;;
           match fetch pub edgeUrl authorization message with
           | FetchThrew => throw ServiceError
           | FetchResponse ok status text =>
               if negb ok then
                 match text with
                 | None => throw ServiceError
                 | Some text =>
                     emit (ConsoleError ("Edge broadcast failed: " +:+ pretty status
                                         +:+ " " +:+ text)) ;;
                     (* Fallback to SQS *)
                     broadcastViaSQS pub message
                 end
               else
                 emit (ConsoleLog ("Edge broadcast successful for " +:+ token))
           end)
          (λ _,
             emit (ConsoleError "Edge broadcast error:") ;;
             (* Fallback to SQS *)
             broadcastViaSQS pub message)
      else
        (* Send to SQS for AWS broadcast *)
        broadcastViaSQS pub message
  | _, _ => broadcastViaSQS pub message
  end.

Definition handler (env : Env) (pub : Publisher) (event : Event) : M Response :=
  try_catch
    ((* Verify webhook authentication *)
     let authHeader := Js.or (headers event !! "authorization")
                             (headers event !! "Authorization") in
     let expectedAuth := "Bearer " +:+ HeliusApiKey pub in
     if negb (bool_decide (authHeader = Some expectedAuth)) then
       emit (ConsoleError "Unauthorized webhook request") ;;
       ret (mkResponse 401 (ErrorBody "Unauthorized"))
     else
       (* Parse and validate webhook payload *)
       payload ← match body event with
                 | Malformed => throw SyntaxError
                 | Invalid => throw ZodError
                 | Valid payload => ret payload
                 end;
       (* Extract token from the request *)
       let token := default "DROP" (Js.or (headers event !! "x-token") (Some "DROP")) in
       (* Calculate price from transaction data *)
       let price := calculatePrice pub (accounts payload) in
       (* Get current date for partition key *)
       dateStr ← match dateStr pub (timestamp payload) with
                 | Some dateStr => ret dateStr
                 | None => throw RangeError
                 end;
       (* Calculate TTL (14 days from now) *)
       let ttl := (now_ms env `div` 1000 + 14 * 24 * 60 * 60)%Z in
       (* Write to DynamoDB time series table *)
       emit (TimeSeriesPut
               (Js.JObj {[ "tokenDate" := Js.JStr (token +:+ "#" +:+ dateStr);
                           "timestamp" := Js.JNum (timestamp payload);
                           "price" := Js.JNum price;
                           "source" := Js.JStr "amm";
                           "slot" := Js.JNum (slot payload);
                           "txSignature" := Js.JStr (txSignature payload);
                           "ttl" := Js.JNum (pretty ttl) ]})) ;;
       (if timeseries_fails pub then throw ServiceError else ret tt) ;;
       (* Prepare broadcast message *)
       let broadcastMessage := broadcastMessage token price payload in
       broadcast pub token broadcastMessage ;;
       ret (mkResponse 200 (StatusBody "accepted")))
    (λ error,
       emit (ConsoleError "Error processing price webhook:") ;;
       if bool_decide (error = ZodError) then
         ret (mkResponse 400 (ErrorBody "Invalid payload"))
       else
         ret (mkResponse 500 (ErrorBody "Internal server error"))).

End PriceWebhook.

(* ===================================================================== *)
(** ** Edge engine: the [BroadcastRoom] durable object and its worker *)
(* ===================================================================== *)

Module Edge.

Record WebSocketInfo := mkInfo {
  socket : nat; (* the handle of the server end of the pair *)
  connectedAt : Z;
  lastPing : Z;
}.

(** The in-memory state of one [BroadcastRoom]. *)
Record Room := mkRoom {
  connections : gmap string WebSocketInfo;
  lastActivity : Z;
}.

Inductive Effect :=
| SocketSend (socket : nat) (data : Js.Json)
| SocketClose (socket : nat)
| RoomFetch (name pathname method : string) (* the worker calls a room *)
| ConsoleLog (line : string)
| ConsoleError (line : string).

Record Env := mkEnv {
  WEBHOOK_SECRET : string;
  ALLOWED_ORIGINS : string;
  (** [socket.send(data)] throws. *)
  send_throws : nat → Js.Json → bool;
  (** [socket.close(...)] throws. *)
  close_throws : nat → bool;
  (** The call to the durable object of that name throws. *)
  room_fails : string → bool;
  (** [Date.now()]. *)
  now : Z;
  (** [crypto.randomUUID()]. *)
  randomUUID : string;
  (** [Math.random() < 0.1]. *)
  cleanup_drawn : bool;
  (** The server end of [new WebSocketPair()]. *)
  new_socket : nat;
}.

Record Request := mkRequest {
  pathname : string; (* new URL(request.url).pathname *)
  method : string;
  headers : gmap string string;
  json : option Js.Json; (* request.json(); [None] when it throws *)
}.

Inductive ResponseBody :=
| Text (text : string)
| Empty
| BroadcastResult (success : bool) (connections : nat)
| Health.

Record Response := mkResponse {
  status : Z;
  body : ResponseBody;
}.

(** What a [fetch] produces: a response, or an exception nobody caught. *)
Inductive Outcome :=
| Responded (response : Response)
| Uncaught.

(** [{ ...message }]: the own enumerable properties of the value. An object
    gives its fields, an array its elements and a string its characters,
    each under its index; a number, a boolean and [null] give none. *)
Definition spread (message : Js.Json) : gmap string Js.Json :=
  match message with
  | Js.JObj fields => fields
  | Js.JArr elements => list_to_map (imap (λ i v, (pretty i, v)) elements)
  | Js.JStr s =>
      list_to_map (imap (λ i c, (pretty i, Js.JStr (String c EmptyString)))
                        (String.list_ascii_of_string s))
  | _ => ∅
  end.

(** [{ ...message, timestamp: Date.now() }]. *)
Definition with_timestamp (message : Js.Json) (now : Z) : Js.Json :=
  Js.JObj (<["timestamp" := Js.JNum (pretty now)]> (spread message)).

(** The first loop of [broadcast]: the ids pushed on [closedConnections]
    and what was done to the sockets. *)
Fixpoint send_to_all (env : Env) (messageStr : Js.Json)
    (entries : list (string * WebSocketInfo)) : list string * list Effect :=
  match entries with
  | [] => ([], [])
  | (id, info) :: rest =>
      let '(closedConnections, effects) := send_to_all env messageStr rest in
      if send_throws env (socket info) messageStr then
        (id :: closedConnections,
         SocketSend (socket info) messageStr
           :: ConsoleError ("Failed to send to " +:+ id +:+ ":") :: effects)
      else
        (closedConnections, SocketSend (socket info) messageStr :: effects)
  end.

(** [for (const id of ids) this.connections.delete(id)]. *)
Definition delete_all (ids : list string) (connections : gmap string WebSocketInfo)
    : gmap string WebSocketInfo :=
  foldl (λ m id, delete id m) connections ids.

(** [BroadcastRoom.broadcast]. *)
Definition broadcast (env : Env) (message : Js.Json) (room : Room) : Room * list Effect :=
  let messageStr := with_timestamp message (now env) in
  (* Send to all connected clients *)
  let '(closedConnections, effects) :=
    send_to_all env messageStr (map_to_list (connections room)) in
  (* Clean up closed connections *)
  let connections := delete_all closedConnections (connections room) in
  (mkRoom connections (lastActivity room),
   effects ++ [ConsoleLog ("Broadcast to " +:+ pretty (size connections) +:+ " connections")]).

(** The loop of [cleanupStaleConnections]. *)
Fixpoint close_stale (env : Env) (entries : list (string * WebSocketInfo))
    : list string * list Effect :=
  match entries with
  | [] => ([], [])
  | (id, info) :: rest =>
      let '(closedConnections, effects) := close_stale env rest in
      if bool_decide (now env - lastPing info > 5 * 60 * 1000)%Z then
        (id :: closedConnections, SocketClose (socket info) :: effects)
      else (closedConnections, effects)
  end.

Definition cleanupStaleConnections (env : Env) (room : Room) : Room * list Effect :=
  let '(closedConnections, effects) := close_stale env (map_to_list (connections room)) in
  (mkRoom (delete_all closedConnections (connections room)) (lastActivity room),
   effects ++
   match closedConnections with
   | [] => []
   | _ => [ConsoleLog ("Cleaned up " +:+ pretty (length closedConnections)
                       +:+ " stale connections")]
   end).

(** [BroadcastRoom.fetch]. *)
Definition room_fetch (env : Env) (request : Request) (room : Room)
    : Outcome * Room * list Effect :=
  let room := mkRoom (connections room) (now env) in
  (* Handle internal broadcast request from worker *)
  if bool_decide (pathname request = "/broadcast") && bool_decide (method request = "POST") then
    match json request with
    | Some message =>
        let '(room, effects) := broadcast env message room in
        (Responded (mkResponse 200 (BroadcastResult true (size (connections room)))),
         room, effects)
    | None =>
        (Responded (mkResponse 500 (Text "Broadcast failed")), room,
         [ConsoleError "Broadcast error:"])
    end
  (* Handle WebSocket upgrade *)
  else if bool_decide (headers request !! "Upgrade" = Some "websocket") then
    let server := new_socket env in
    (* Generate unique connection ID *)
    let connectionId := randomUUID env in
    (* Store connection info *)
    let room := mkRoom (<[connectionId := mkInfo server (now env) (now env)]> (connections room))
                       (lastActivity room) in
    (* Send welcome message *)
    let welcome := Js.JObj {[ "type" := Js.JStr "connected";
                              "connectionId" := Js.JStr connectionId;
                              "timestamp" := Js.JNum (pretty (now env)) ]} in
    if send_throws env server welcome then (Uncaught, room, [SocketSend server welcome])
    else
      (* Clean up very old connections periodically *)
      let '(room, effects) :=
        if cleanup_drawn env then cleanupStaleConnections env room else (room, []) in
      (Responded (mkResponse 101 Empty), room, SocketSend server welcome :: effects)
  else (Responded (mkResponse 404 (Text "Not found")), room, []).

(** The durable objects alive in the namespace, by name. *)
Abbreviation Rooms := (gmap string Room).

(** [env.BROADCAST_ROOM.get(env.BROADCAST_ROOM.idFromName(token)).fetch(r)]:
    the room is created on first use, with an empty connection map. *)
Definition call_room (env : Env) (token : string) (request : Request) (rooms : Rooms)
    : Outcome * Rooms * list Effect :=
  let call := RoomFetch token (pathname request) (method request) in
  if room_fails env token then (Uncaught, rooms, [call])
  else
    let room := default (mkRoom ∅ (now env)) (rooms !! token) in
    let '(outcome, room, effects) := room_fetch env request room in
    (outcome, <[token := room]> rooms, call :: effects).

(** The worker: [export default { fetch }]. *)
Definition fetch (env : Env) (request : Request) (rooms : Rooms)
    : Outcome * Rooms * list Effect :=
  (* Route: POST /broadcast/:token - REST endpoint for Lambda webhooks *)
  if Js.startsWith (pathname request) "/broadcast/" && bool_decide (method request = "POST") then
    let token := Js.split "/"%char (pathname request) !! 2%nat in
    match token with
    | Some token =>
        if negb (Js.truthy (Some token)) then
          (Responded (mkResponse 400 (Text "Token required")), rooms, [])
        (* Verify webhook secret *)
        else if negb (bool_decide (headers request !! "Authorization"
                                   = Some ("Bearer " +:+ WEBHOOK_SECRET env))) then
          (Responded (mkResponse 401 (Text "Unauthorized")), rooms, [])
        else
          match json request with
          | Some message =>
              (* Forward message to Durable Object *)
              let forwarded :=
                mkRequest "/broadcast" "POST" {[ "Content-Type" := "application/json" ]}
                          (Some message) in
              match call_room env token forwarded rooms with
              | (Responded response, rooms, effects) => (Responded response, rooms, effects)
              | (Uncaught, rooms, effects) =>
                  (Responded (mkResponse 500 (Text "Internal error")), rooms,
                   effects ++ [ConsoleError "Broadcast error:"])
              end
          | None =>
              (Responded (mkResponse 500 (Text "Internal error")), rooms,
               [ConsoleError "Broadcast error:"])
          end
    | None => (Responded (mkResponse 400 (Text "Token required")), rooms, [])
    end
  (* Route: /ws/:token - WebSocket endpoint for clients *)
  else if Js.startsWith (pathname request) "/ws/" then
    let token := Js.split "/"%char (pathname request) !! 2%nat in
    match token with
    | Some token =>
        if negb (Js.truthy (Some token)) then
          (Responded (mkResponse 400 (Text "Token required")), rooms, [])
        (* Check WebSocket upgrade header *)
        else if negb (bool_decide (headers request !! "Upgrade" = Some "websocket")) then
          (Responded (mkResponse 426 (Text "Expected WebSocket")), rooms, [])
        (* CORS check for WebSocket *)
        else if Js.truthy (headers request !! "Origin")
                && negb (bool_decide (default "" (headers request !! "Origin")
                                      ∈ Js.split ","%char (ALLOWED_ORIGINS env))) then
          (Responded (mkResponse 403 (Text "Origin not allowed")), rooms, [])
        else
          (* Forward WebSocket request to Durable Object *)
          call_room env token request rooms
    | None => (Responded (mkResponse 400 (Text "Token required")), rooms, [])
    end
  (* Health check endpoint *)
  else if bool_decide (pathname request = "/health") then
    (Responded (mkResponse 200 Health), rooms, [])
  else (Responded (mkResponse 404 (Text "Not found")), rooms, []).

End Edge.

(* ===================================================================== *)
(** ** Disconnect (the [$disconnect] route handler) *)
(* ===================================================================== *)

Module Disconnect.
Import Dynamo Lambda.

Record Event := mkEvent {
  connectionId : string;
}.

Definition handler (env : Env) (event : Event) : M Response :=
  let connectionId := connectionId event in
  try_catch
    (emit (ConsoleLog ("WebSocket disconnected: " +:+ connectionId)) ;;
     (* Delete from PriceConnectionsTable *)
     try_catch
       (DeleteCommand env PriceConnectionsTable {[ "connectionId" := AttrS connectionId ]})
       (λ _, emit (ConsoleError "Error deleting from PriceConnectionsTable:")) ;;
     (* Delete from BalanceConnectionsTable *)
     try_catch
       (DeleteCommand env BalanceConnectionsTable {[ "connectionId" := AttrS connectionId ]})
       (λ _, emit (ConsoleError "Error deleting from BalanceConnectionsTable:")) ;;
     ret (mkResponse 200 (MessageBody "Disconnected")))
    (λ _,
       emit (ConsoleError "Disconnect error:") ;;
       (* Always return 200 for disconnect to avoid retries *)
       ret (mkResponse 200 (MessageBody "Disconnected with errors"))).

End Disconnect.

(* ===================================================================== *)
(** ** Sample deployments and requests, used to run the handlers *)
(* ===================================================================== *)

Module Sample.
Import Dynamo Lambda.

Definition names (t : TableRef) : string :=
  match t with
  | PriceConnectionsTable => "server-dev-PriceConnectionsTable"
  | BalanceConnectionsTable => "server-dev-BalanceConnectionsTable"
  | WebsocketNonceTable => "server-dev-WebsocketNonceTable"
  end.

(** Nothing fails, every signature verifies, every send is delivered. *)
Definition env (now : Z) : Env :=
  mkEnv (λ _, false) (λ _ _ _, Verified) (λ _ _, None) now "nonce-1" names (λ _, []).

(** As [env], with the deletes on the nonce table failing. *)
Definition env_delete_down (now : Z) : Env :=
  mkEnv (λ op, match op with OpDelete WebsocketNonceTable _ => true | _ => false end)
        (λ _ _ _, Verified) (λ _ _, None) now "nonce-1" names (λ _, []).

Definition empty_db : DB := mkDB ∅ ∅ ∅.

(** The store after a nonce was issued to wallet [W]. *)
Definition issued_db : DB :=
  db (invoke (Nonce.handler (env 1000000)
                (Nonce.mkEvent (Some {[ "wallet" := "W" ]}))) empty_db).2.

Definition connect_event (message : string) : Connect.Event :=
  Connect.mkEvent "conn-1"
    (Some {[ "wallet" := "W"; "signature" := "c2ln"; "message" := message ]}) None.

Definition subscribe_event (connectionId token : string) : SubscribePrice.Event :=
  SubscribePrice.mkEvent connectionId
    (SubscribePrice.Parsed (Js.JObj {[ "token" := Js.JStr token ]})).

(** The registry after connections [C1] and [C2] subscribed to [TOK]. *)
Definition two_subscribers_db : DB :=
  let d1 := db (invoke (SubscribePrice.handler (env 1000000) (subscribe_event "C1" "TOK"))
                       empty_db).2 in
  db (invoke (SubscribePrice.handler (env 1002000) (subscribe_event "C2" "TOK")) d1).2.

(** As [env], with connection [C2] gone: a send to it fails with 410. *)
Definition env_C2_gone (now : Z) : Env :=
  mkEnv (λ _, false) (λ _ _ _, Verified)
        (λ connectionId _, if bool_decide (connectionId = "C2") then Some (Some 410%Z) else None)
        now "nonce-1" names (λ _, []).

Definition price_update : Js.Json :=
  Js.JObj {[ "type" := Js.JStr "PRICE_UPDATE"; "token" := Js.JStr "TOK";
             "price" := Js.JNum "1.23"; "timestamp" := Js.JNum "1000" ]}.

(** The queue record the publisher writes for [price_update]. *)
Definition price_record : BroadcastWorker.SQSRecord :=
  BroadcastWorker.mkRecord (Some (mkQueueBody (Some []) price_update)).

(** A queue record for [price_update] that names its connections. *)
Definition targeted_record (connectionIds : list string) : BroadcastWorker.SQSRecord :=
  BroadcastWorker.mkRecord (Some (mkQueueBody (Some connectionIds) price_update)).

(** An edge deployment in which the socket with handle 2 is broken. *)
Definition edge_env (now : Z) : Edge.Env :=
  Edge.mkEnv "s3cret" "https://app.example" (λ socket _, bool_decide (socket = 2%nat))
             (λ _, false) (λ _, false) now "uuid-3" false 3%nat.

Definition edge_room : Edge.Room :=
  Edge.mkRoom {[ "uuid-1" := Edge.mkInfo 1 100 100; "uuid-2" := Edge.mkInfo 2 200 200 ]} 200.

Definition publish_request (authorization : string) : Edge.Request :=
  Edge.mkRequest "/broadcast/TOK" "POST" {[ "Authorization" := authorization ]}
                 (Some price_update).

Definition webhook_payload : PriceWebhook.Payload :=
  PriceWebhook.mkPayload "SWAP"
    [PriceWebhook.mkAccount "vault_sol" "-1230000000";
     PriceWebhook.mkAccount "user" "1000"]
    "5sig" "42" "1000".

Definition webhook_event : PriceWebhook.Event :=
  PriceWebhook.mkEvent {[ "authorization" := "Bearer helius-key"; "x-token" := "TOK" ]}
    (PriceWebhook.Valid webhook_payload).

(** A publisher configured for the edge engine, whose edge worker answers
    with the given outcome. *)
Definition publisher_with (flag : option string) (outcome : PriceWebhook.FetchOutcome)
    (sqs_send : nat → PriceWebhook.SqsOutcome) : PriceWebhook.Publisher :=
  PriceWebhook.mkPublisher "helius-key" flag (Some "https://edge.example")
    (Some "s3cret") (λ _, "0.00123")
    (λ timestamp, if bool_decide (timestamp = "1e13") then None else Some "19700101") false
    (λ _ _ _, outcome) sqs_send.

(** The queue accepts every entry. *)
Definition publisher (outcome : PriceWebhook.FetchOutcome) : PriceWebhook.Publisher :=
  publisher_with (Some "true") outcome (λ _, PriceWebhook.SqsSuccessful).

(** A store with expired and live rows at time 5000 (seconds). *)
Definition sweep_db : DB :=
  mkDB {[ "C1" := {[ "token" := AttrS "TOK"; "ttl" := AttrN 4600 ]};
          "C2" := {[ "token" := AttrS "TOK"; "ttl" := AttrN 9000 ]} ]}
       {[ "B1" := {[ "wallet" := AttrS "W"; "ttl" := AttrN 100 ]} ]}
       {[ "W" := {[ "nonce" := AttrS "nonce-1"; "ttl" := AttrN 5000 ]} ]}.

(** As [env], with the Scan of the price table split in two pages. *)
Definition sweep_env : Env :=
  mkEnv (λ _, false) (λ _ _ _, Verified) (λ _ _, None) 5000999 "nonce-1" names
        (λ t, match t with
              | PriceConnectionsTable => [["C1"]; ["C2"]]
              | BalanceConnectionsTable => [["B1"]]
              | WebsocketNonceTable => [["W"]]
              end).

(** As [env], with every signature check answering false. *)
Definition env_bad_signature (now : Z) : Env :=
  mkEnv (λ _, false) (λ _ _ _, NotVerified) (λ _ _, None) now "nonce-1" names (λ _, []).

(** As [env], with every send to a connection failing (status 500). *)
Definition env_sends_fail (now : Z) : Env :=
  mkEnv (λ _, false) (λ _ _ _, Verified) (λ _ _, Some (Some 500%Z)) now "nonce-1" names
        (λ _, []).

(** As [env], with every DynamoDB call failing. *)
Definition env_store_down (now : Z) : Env :=
  mkEnv (λ _, true) (λ _ _ _, Verified) (λ _ _, None) now "nonce-1" names (λ _, []).

Definition nonce_event (wallet : string) : Nonce.Event :=
  Nonce.mkEvent (Some {[ "wallet" := wallet ]}).

End Sample.

(* ===================================================================== *)
(** * Properties *)
(* ===================================================================== *)

Import Dynamo Lambda.

#[local] Arguments key_value : simpl never.
#[local] Arguments item_key : simpl never.
#[local] Arguments get : simpl never.
#[local] Arguments put : simpl never.
#[local] Arguments delete_item : simpl never.
#[local] Arguments query : simpl never.
#[local] Arguments scan_page : simpl never.

(** Unfolds the monad and the SDK calls, leaving the table operations. *)
Ltac munfold :=
  unfold invoke, GetCommand, DeleteCommand, PutCommand, QueryCommand, ScanCommand,
    PostToConnectionCommand, send, mbind, M_bind, bind, mret, M_ret, ret, throw,
    try_catch, emit, read_db, write_db in *.

(** ** The store *)

Lemma key_value_singleton t k : key_value t {[ hashKey t := AttrS k ]} = Some k.
Proof.
  unfold key_value. rewrite map_to_list_singleton. by rewrite bool_decide_eq_true_2.
Qed.

Lemma key_value_wallet k :
  key_value WebsocketNonceTable {[ "wallet" := AttrS k ]} = Some k.
Proof. exact (key_value_singleton WebsocketNonceTable k). Qed.

Lemma key_value_connectionId k :
  key_value PriceConnectionsTable {[ "connectionId" := AttrS k ]} = Some k.
Proof. exact (key_value_singleton PriceConnectionsTable k). Qed.

Lemma table_set_table t tb d : table t (set_table t tb d) = tb.
Proof. by destruct t. Qed.

Lemma table_set_table_ne t t' tb d : t ≠ t' → table t' (set_table t tb d) = table t' d.
Proof. by destruct t, t'. Qed.

Lemma truthy_Some v :
  Js.truthy v = true ↔ ∃ s, v = Some s ∧ s ≠ "".
Proof.
  destruct v as [s|]; simpl.
  - rewrite negb_true_iff, bool_decide_eq_false. split.
    + intros H. by exists s.
    + by intros (s' & [= <-] & H).
  - split; [done|]. by intros (s & H & _).
Qed.

(** ** Connection authenticator *)

Definition stored_nonce (d : DB) (wallet : string) : option AttrValue :=
  websocketNonces d !! wallet ≫= (λ attrs, attrs !! "nonce").

Definition get_nonce (wallet : string) : Op :=
  OpGet WebsocketNonceTable {[ "wallet" := AttrS wallet ]}.

Definition delete_nonce (wallet : string) : Op :=
  OpDelete WebsocketNonceTable {[ "wallet" := AttrS wallet ]}.

Definition internal_error (d : DB) (tr : list Effect) : Result Response * World :=
  (Ok (mkResponse 500 (ErrorBody "Internal server error")),
   mkWorld d [] (tr ++ [ConsoleError "Connection error:"])).

(** The runs of [Connect.handler] on a request that carries the three
    parameters, as a decision tree. *)
Definition authenticate (env : Env) (connectionId wallet signature message : string)
    (d : DB) : Result Response * World :=
  let check := VerifySignature message signature wallet in
  if ddb_fails env (get_nonce wallet) then internal_error d [Ddb (get_nonce wallet)]
  else if bool_decide (stored_nonce d wallet = Some (AttrS message)) then
    match verify env message signature wallet with
    | Verified =>
        if ddb_fails env (delete_nonce wallet) then
          internal_error d [Ddb (get_nonce wallet); check; Ddb (delete_nonce wallet)]
        else
          (Ok (mkResponse 200 (MessageBody "Connected")),
           mkWorld (delete_item WebsocketNonceTable wallet d) []
             [Ddb (get_nonce wallet); check; Ddb (delete_nonce wallet);
              ConsoleLog ("WebSocket connected: " +:+ connectionId
                          +:+ " for wallet: " +:+ wallet)])
    | NotVerified =>
        (Ok (mkResponse 401 (ErrorBody "Invalid signature")),
         mkWorld d [] [Ddb (get_nonce wallet); check])
    | VerifyThrew =>
        (Ok (mkResponse 401 (ErrorBody "Invalid signature format")),
         mkWorld d [] [Ddb (get_nonce wallet); check;
                       ConsoleError "Signature verification error:"])
    end
  else
    (Ok (mkResponse 401 (ErrorBody "Invalid or expired nonce")),
     mkWorld d [] [Ddb (get_nonce wallet)]).

Lemma handler_authenticates env event d wallet signature message :
  Connect.param event "wallet" = Some wallet →
  Connect.param event "signature" = Some signature →
  Connect.param event "message" = Some message →
  wallet ≠ "" → signature ≠ "" → message ≠ "" →
  invoke (Connect.handler env event) d
  = authenticate env (Connect.connectionId event) wallet signature message d.
Proof.
  intros Hw Hs Hm Hw' Hs' Hm'.
  unfold Connect.handler, authenticate, internal_error, get_nonce, delete_nonce.
  rewrite Hw, Hs, Hm.
  unfold Js.truthy. rewrite !bool_decide_eq_false_2 by done. simpl.
  munfold. simpl.
  destruct (ddb_fails env (OpGet _ _)) eqn:Hget; simpl; [done|].
  pose proof (key_value_wallet wallet) as Hkey. rewrite Hkey.
  unfold get, stored_nonce. simpl.
  destruct (websocketNonces d !! wallet) as [attrs|] eqn:E; simpl; [|done].
  unfold item_of. simpl. rewrite lookup_insert_ne by done.
  case_bool_decide; simpl; [|done].
  unfold Connect.verify_signature. munfold. simpl.
  destruct (verify env message signature wallet); simpl;
    [|reflexivity|reflexivity].
  destruct (ddb_fails env (OpDelete _ _)) eqn:Hdel; simpl; reflexivity.
Qed.

Lemma handler_missing_parameters env event d :
  Js.truthy (Connect.param event "wallet") && Js.truthy (Connect.param event "signature")
    && Js.truthy (Connect.param event "message") = false →
  invoke (Connect.handler env event) d
  = (Ok (mkResponse 401 (ErrorBody "Missing authentication parameters")), mkWorld d [] []).
Proof.
  intros H. unfold Connect.handler. munfold.
  destruct (Js.truthy (Connect.param event "wallet")),
    (Js.truthy (Connect.param event "signature")),
    (Js.truthy (Connect.param event "message")); simpl in *; done.
Qed.

(** A response with status 200 comes from the last line of the handler:
    the nonce matched, the signature verified and the delete took effect. *)
Lemma handler_admitted env event d r w wallet :
  Connect.param event "wallet" = Some wallet →
  invoke (Connect.handler env event) d = (Ok r, w) →
  statusCode r = 200%Z →
  wallet ≠ "" ∧ db w = delete_item WebsocketNonceTable wallet d.
Proof.
  intros Hw Hrun H200.
  destruct (Js.truthy (Connect.param event "wallet") && Js.truthy (Connect.param event "signature")
            && Js.truthy (Connect.param event "message")) eqn:Hp.
  - apply andb_true_iff in Hp as [Hp Hm]. apply andb_true_iff in Hp as [Hp Hs].
    apply truthy_Some in Hp as (wallet' & Hw1 & Hw2).
    apply truthy_Some in Hs as (signature & Hs1 & Hs2).
    apply truthy_Some in Hm as (message & Hm1 & Hm2).
    assert (wallet' = wallet) as -> by congruence.
    rewrite (handler_authenticates env event d wallet signature message) in Hrun by done.
    unfold authenticate, internal_error in Hrun.
    repeat case_match; simplify_eq; simpl in *; done.
  - rewrite handler_missing_parameters in Hrun by done. by simplify_eq.
Qed.

Lemma stored_nonce_deleted wallet d :
  stored_nonce (delete_item WebsocketNonceTable wallet d) wallet = None.
Proof.
  unfold stored_nonce, delete_item. simpl. by rewrite lookup_delete_eq.
Qed.

(** C5, as amended. Authentication gate ordering, for a request that carries
    a wallet, a nonce and a signature, none of them empty: when no nonce is
    stored for the wallet, or the stored nonce differs from the presented
    one, the answer is 401 "Invalid or expired nonce" whatever the
    signature, the store is left as it was and the only call made is the
    nonce lookup, so no signature check takes place. When the nonce matches,
    the signature is checked, and a signature that does not verify is
    answered 401 "Invalid signature". *)
Theorem C5_nonce_gate_precedes_signature_check env event d wallet signature message :
  Connect.param event "wallet" = Some wallet →
  Connect.param event "signature" = Some signature →
  Connect.param event "message" = Some message →
  wallet ≠ "" → signature ≠ "" → message ≠ "" →
  ddb_fails env (get_nonce wallet) = false →
  let '(result, w) := invoke (Connect.handler env event) d in
  if bool_decide (stored_nonce d wallet = Some (AttrS message)) then
    VerifySignature message signature wallet ∈ trace w
    ∧ (verify env message signature wallet = NotVerified →
       result = Ok (mkResponse 401 (ErrorBody "Invalid signature")) ∧ db w = d)
  else
    result = Ok (mkResponse 401 (ErrorBody "Invalid or expired nonce"))
    ∧ db w = d
    ∧ trace w = [Ddb (get_nonce wallet)]
    ∧ ∀ m s k, VerifySignature m s k ∉ trace w.
Proof.
  intros Hw Hs Hm Hw' Hs' Hm' Hget.
  rewrite (handler_authenticates env event d wallet signature message) by done.
  unfold authenticate. rewrite Hget.
  case_bool_decide as Hnonce.
  - destruct (verify env message signature wallet) eqn:Hv;
      [destruct (ddb_fails env (delete_nonce wallet))|..]; simpl;
      (split; [set_solver | done]).
  - simpl. repeat split. intros m s k. set_solver.
Qed.

Lemma C5_witness_mismatched_nonce :
  let '(result, w) :=
    invoke (Connect.handler (Sample.env 1000000) (Sample.connect_event "stale"))
           Sample.issued_db in
  result = Ok (mkResponse 401 (ErrorBody "Invalid or expired nonce"))
  ∧ db w = Sample.issued_db
  ∧ trace w = [Ddb (get_nonce "W")]
  ∧ ∀ m s k, VerifySignature m s k ∉ trace w.
Proof.
  exact (C5_nonce_gate_precedes_signature_check (Sample.env 1000000)
           (Sample.connect_event "stale") Sample.issued_db "W" "c2ln" "stale"
           eq_refl eq_refl eq_refl
           ltac:(discriminate) ltac:(discriminate) ltac:(discriminate) eq_refl).
Defined.

(** C5 fails as stated: the presented nonce differs from the stored one and
    the signature is the empty text; the answer is "Missing authentication
    parameters", given before the nonce is looked up, not "Invalid or
    expired nonce". *)
Lemma C5_counterexample_empty_signature :
  let env := Sample.env 1000000 in
  let event :=
    Connect.mkEvent "conn-1"
      (Some {[ "wallet" := "W"; "signature" := ""; "message" := "stale" ]}) None in
  let run := invoke (Connect.handler env event) Sample.issued_db in
  stored_nonce Sample.issued_db "W" = Some (AttrS "nonce-1")
  ∧ stored_nonce Sample.issued_db "W" ≠ Some (AttrS "stale")
  ∧ run.1 = Ok (mkResponse 401 (ErrorBody "Missing authentication parameters"))
  ∧ run.1 ≠ Ok (mkResponse 401 (ErrorBody "Invalid or expired nonce"))
  ∧ trace run.2 = [].
Proof. vm_compute. repeat split; congruence. Qed.

(** C1. Single-use nonce: once a connect request for a wallet has been
    admitted (status 200), no nonce is stored for that wallet any more, and
    a later request presenting the same wallet and nonce, whatever its
    signature, is answered 401 "Invalid or expired nonce" without a signature
    check (or 500 when the store cannot be read): it is never admitted. *)
Theorem C1_nonce_admits_once env1 env2 event1 event2 d r1 w1 wallet message :
  Connect.param event1 "wallet" = Some wallet →
  Connect.param event1 "message" = Some message →
  invoke (Connect.handler env1 event1) d = (Ok r1, w1) →
  statusCode r1 = 200%Z →
  Connect.param event2 "wallet" = Some wallet →
  Connect.param event2 "message" = Some message →
  Js.truthy (Connect.param event2 "signature") = true →
  websocketNonces (db w1) !! wallet = None
  ∧ invoke (Connect.handler env2 event2) (db w1)
    = if ddb_fails env2 (get_nonce wallet) then
        internal_error (db w1) [Ddb (get_nonce wallet)]
      else
        (Ok (mkResponse 401 (ErrorBody "Invalid or expired nonce")),
         mkWorld (db w1) [] [Ddb (get_nonce wallet)]).
Proof.
  intros Hw1 Hm1 Hrun H200 Hw2 Hm2 Hs2.
  destruct (handler_admitted env1 event1 d r1 w1 wallet Hw1 Hrun H200) as [Hne Hdb].
  assert (message ≠ "") as Hmne.
  { destruct (Js.truthy (Connect.param event1 "message")) eqn:Ht.
    - apply truthy_Some in Ht as (m & Hm & Hm'). congruence.
    - rewrite handler_missing_parameters in Hrun.
      + by simplify_eq.
      + rewrite Ht. apply andb_false_r. }
  apply truthy_Some in Hs2 as (signature2 & Hs2 & Hs2').
  split.
  - rewrite Hdb. unfold delete_item. simpl. apply lookup_delete_eq.
  - rewrite (handler_authenticates env2 event2 (db w1) wallet signature2 message) by done.
    unfold authenticate. destruct (ddb_fails env2 (get_nonce wallet)); [reflexivity|].
    assert (stored_nonce (db w1) wallet = None) as ->
      by (rewrite Hdb; apply stored_nonce_deleted).
    rewrite bool_decide_eq_false_2 by discriminate. reflexivity.
Qed.

Lemma C1_witness_issue_connect_replay :
  let first := invoke (Connect.handler (Sample.env 1000000) (Sample.connect_event "nonce-1"))
                      Sample.issued_db in
  first.1 = Ok (mkResponse 200 (MessageBody "Connected"))
  ∧ websocketNonces (db first.2) !! "W" = None
  ∧ invoke (Connect.handler (Sample.env 1000001) (Sample.connect_event "nonce-1")) (db first.2)
    = (Ok (mkResponse 401 (ErrorBody "Invalid or expired nonce")),
       mkWorld (db first.2) [] [Ddb (get_nonce "W")]).
Proof.
  split; [reflexivity|].
  exact (C1_nonce_admits_once (Sample.env 1000000) (Sample.env 1000001)
           (Sample.connect_event "nonce-1") (Sample.connect_event "nonce-1")
           Sample.issued_db _ _ "W" "nonce-1"
           eq_refl eq_refl eq_refl eq_refl eq_refl eq_refl eq_refl).
Defined.

(** C4, as the code has it. The delete of the nonce is attempted exactly
    when the lookup succeeded, the nonce matched and the signature verified,
    and the check precedes it in the trace. When that delete fails, the
    outer [catch] answers 500 "Internal server error": the connection is
    refused and the nonce stays in the store. *)
Theorem C4_failed_nonce_delete_refuses env event d wallet signature message :
  Connect.param event "wallet" = Some wallet →
  Connect.param event "signature" = Some signature →
  Connect.param event "message" = Some message →
  wallet ≠ "" → signature ≠ "" → message ≠ "" →
  let '(result, w) := invoke (Connect.handler env event) d in
  (Ddb (delete_nonce wallet) ∈ trace w ↔
     ddb_fails env (get_nonce wallet) = false
     ∧ stored_nonce d wallet = Some (AttrS message)
     ∧ verify env message signature wallet = Verified)
  ∧ (Ddb (delete_nonce wallet) ∈ trace w →
     ∃ before after,
       trace w = before ++ Ddb (delete_nonce wallet) :: after
       ∧ VerifySignature message signature wallet ∈ before)
  ∧ (Ddb (delete_nonce wallet) ∈ trace w →
     if ddb_fails env (delete_nonce wallet) then
       result = Ok (mkResponse 500 (ErrorBody "Internal server error")) ∧ db w = d
     else
       result = Ok (mkResponse 200 (MessageBody "Connected"))
       ∧ db w = delete_item WebsocketNonceTable wallet d).
Proof.
  intros Hw Hs Hm Hw' Hs' Hm'.
  rewrite (handler_authenticates env event d wallet signature message) by done.
  unfold authenticate, internal_error, get_nonce, delete_nonce.
  destruct (ddb_fails env (OpGet _ _)) eqn:Hget; simpl.
  { split_and!; [split|..]; [set_solver | naive_solver | set_solver..]. }
  case_bool_decide as Hnonce; simpl.
  2: { split_and!; [split|..]; [set_solver | naive_solver | set_solver..]. }
  destruct (verify env message signature wallet) eqn:Hv; simpl.
  2,3: split_and!; [split|..]; [set_solver | naive_solver | set_solver..].
  destruct (ddb_fails env (OpDelete _ _)) eqn:Hdel; simpl.
  - split_and!; [split; [done | set_solver] | | done].
    intros _. eexists [_; _], [_]. split; [done | set_solver].
  - split_and!; [split; [done | set_solver] | | done].
    intros _. eexists [_; _], [_]. split; [done | set_solver].
Qed.

Lemma C4_witness_delete_down :
  let '(result, w) :=
    invoke (Connect.handler (Sample.env_delete_down 1000000) (Sample.connect_event "nonce-1"))
           Sample.issued_db in
  result = Ok (mkResponse 500 (ErrorBody "Internal server error"))
  ∧ db w = Sample.issued_db.
Proof.
  pose proof (C4_failed_nonce_delete_refuses (Sample.env_delete_down 1000000)
                (Sample.connect_event "nonce-1") Sample.issued_db "W" "c2ln" "nonce-1"
                eq_refl eq_refl eq_refl
                ltac:(discriminate) ltac:(discriminate) ltac:(discriminate)) as H.
  destruct (invoke _ _) as [result w] eqn:Hrun in H |- *.
  destruct H as (Hiff & _ & Hfail).
  apply Hfail, Hiff. repeat split; vm_compute; reflexivity.
Defined.

(** C4 fails as stated: the nonce matches, the signature verifies, the
    delete of the nonce fails, and the answer is 500, not an admission. *)
Lemma C4_counterexample_delete_down :
  let env := Sample.env_delete_down 1000000 in
  let run := invoke (Connect.handler env (Sample.connect_event "nonce-1")) Sample.issued_db in
  stored_nonce Sample.issued_db "W" = Some (AttrS "nonce-1")
  ∧ verify env "nonce-1" "c2ln" "W" = Verified
  ∧ ddb_fails env (delete_nonce "W") = true
  ∧ run.1 = Ok (mkResponse 500 (ErrorBody "Internal server error"))
  ∧ run.1 ≠ Ok (mkResponse 200 (MessageBody "Connected"))
  ∧ stored_nonce (db run.2) "W" = Some (AttrS "nonce-1").
Proof. vm_compute. repeat split; congruence. Qed.

(** ** Subscription registry *)

Lemma elem_of_rows t d item :
  item ∈ rows t d ↔ ∃ k attrs, table t d !! k = Some attrs ∧ item = item_of t k attrs.
Proof.
  unfold rows. rewrite list_elem_of_fmap. split.
  - intros ([k attrs] & -> & Hin). apply elem_of_map_to_list in Hin. by exists k, attrs.
  - intros (k & attrs & Hk & ->). exists (k, attrs). split; [done|].
    by apply elem_of_map_to_list.
Qed.

Lemma item_of_hashKey t k attrs : item_of t k attrs !! hashKey t = Some (AttrS k).
Proof. unfold item_of. apply lookup_insert_eq. Qed.

Lemma item_of_other t k attrs a : a ≠ hashKey t → item_of t k attrs !! a = attrs !! a.
Proof. intros. unfold item_of. by apply lookup_insert_ne. Qed.

Lemma filter_none {A} (P : A → Prop) `{∀ x, Decision (P x)} (l : list A) :
  (∀ x, x ∈ l → ¬ P x) → filter P l = [].
Proof.
  induction l as [|x l IH]; intros Hl; [done|].
  rewrite filter_cons_False by (apply Hl; left).
  apply IH. intros y Hy. apply Hl. by right.
Qed.

Lemma filter_and_singleton {A} (P Q : A → Prop)
    `{∀ x, Decision (P x)} `{∀ x, Decision (Q x)} (l : list A) (x : A) :
  filter P l = [x] → Q x → filter (λ y, P y ∧ Q y) l = [x].
Proof.
  intros Hl HQ.
  rewrite (list_filter_iff _ (λ y, Q y ∧ P y)) by (intros y; split; intros []; done).
  rewrite <- list_filter_filter, Hl. by rewrite filter_cons_True.
Qed.

(** The rows of a table that carry a given hash-key value: at most one. *)
Lemma rows_with_key t d k :
  filter (λ item, item !! hashKey t = Some (AttrS k)) (rows t d)
  = match table t d !! k with
    | Some attrs => [item_of t k attrs]
    | None => []
    end.
Proof.
  unfold rows. destruct (table t d !! k) as [attrs|] eqn:Hk.
  - apply Permutation_singleton_r.
    rewrite <- (insert_id (table t d) k attrs) at 1 by done.
    rewrite <- insert_delete_eq.
    rewrite map_to_list_insert by apply lookup_delete_eq.
    rewrite fmap_cons, filter_cons_True by apply item_of_hashKey.
    rewrite filter_none; [done|].
    intros item ([k' attrs'] & -> & Hin)%list_elem_of_fmap. simpl.
    apply elem_of_map_to_list in Hin. rewrite item_of_hashKey.
    intros [= ->]. by rewrite lookup_delete_eq in Hin.
  - apply filter_none.
    intros item ([k' attrs'] & -> & Hin)%list_elem_of_fmap. simpl.
    apply elem_of_map_to_list in Hin. rewrite item_of_hashKey.
    intros [= ->]. congruence.
Qed.

(** [resolveSubscribers(token)] on a registry: the connection ids of the
    rows the [byToken] index returns. *)
Definition subscribers (token : string) (d : DB) : list string :=
  BroadcastWorker.connectionIds_of (query PriceConnectionsTable "token" token d).

Lemma elem_of_subscribers token d c :
  c ∈ subscribers token d ↔
  ∃ attrs, priceConnections d !! c = Some attrs ∧ attrs !! "token" = Some (AttrS token).
Proof.
  unfold subscribers, BroadcastWorker.connectionIds_of, query.
  rewrite list_elem_of_omap. split.
  - intros (item & Hin & Hc). apply list_elem_of_filter in Hin as [Htok Hin].
    apply elem_of_rows in Hin as (k & attrs & Hk & ->).
    change "connectionId" with (hashKey PriceConnectionsTable) in Hc.
    rewrite item_of_hashKey in Hc. simplify_eq.
    rewrite item_of_other in Htok by done. by exists attrs.
  - intros (attrs & Hk & Htok). exists (item_of PriceConnectionsTable c attrs). split.
    + apply list_elem_of_filter. split.
      * by rewrite item_of_other.
      * apply elem_of_rows. by exists c, attrs.
    + change "connectionId" with (hashKey PriceConnectionsTable).
      by rewrite item_of_hashKey.
Qed.

(** What [subscribePrice] writes. *)
Definition subscription (connectionId token : string) (ttl : Z) : Item :=
  {[ "connectionId" := AttrS connectionId; "token" := AttrS token; "ttl" := AttrN ttl ]}.

Definition subscription_ttl (env : Env) : Z := (now_ms env `div` 1000 + 3600)%Z.

Lemma item_key_subscription c token ttl :
  item_key PriceConnectionsTable (subscription c token ttl) = Some c.
Proof. unfold item_key, subscription. simpl. by rewrite lookup_insert_eq. Qed.

Lemma put_subscription c token ttl d :
  priceConnections (put PriceConnectionsTable c (subscription c token ttl) d)
  = <[c := {[ "token" := AttrS token; "ttl" := AttrN ttl ]}]> (priceConnections d).
Proof.
  unfold put, subscription. simpl. f_equal.
Qed.

Lemma item_of_subscription c token ttl :
  item_of PriceConnectionsTable c {[ "token" := AttrS token; "ttl" := AttrN ttl ]}
  = subscription c token ttl.
Proof. reflexivity. Qed.

(** The registry after a [subscribePrice] request with a usable token: the
    row is written whenever the put goes through, whatever happens to the
    confirmation sent afterwards. *)
Lemma subscribe_writes_row env event d j token :
  SubscribePrice.body event = SubscribePrice.Parsed j →
  Js.prop j "token" = Some (Js.JStr token) →
  token ≠ "" →
  let item := subscription (SubscribePrice.connectionId event) token (subscription_ttl env) in
  db (invoke (SubscribePrice.handler env event) d).2
  = if ddb_fails env (OpPut PriceConnectionsTable item) then d
    else put PriceConnectionsTable (SubscribePrice.connectionId event) item d.
Proof.
  intros Hbody Hprop Htoken item.
  unfold SubscribePrice.handler, SubscribePrice.parse_body,
    SubscribePrice.SubscribePriceSchema_parse.
  rewrite Hbody. munfold. simpl. rewrite Hprop.
  rewrite bool_decide_eq_false_2 by done. simpl.
  fold (subscription_ttl env).
  fold (subscription (SubscribePrice.connectionId event) token (subscription_ttl env)).
  fold item.
  destruct (ddb_fails env (OpPut PriceConnectionsTable item)) eqn:Hput; simpl.
  - by destruct (post_error env _ _).
  - pose proof (item_key_subscription (SubscribePrice.connectionId event) token
                  (subscription_ttl env)) as Hkey.
    fold item in Hkey. rewrite Hkey. simpl.
    destruct (post_error env _ (SubscribePrice.confirmationMessage token)); simpl; [|done].
    by destruct (post_error env _ _).
Qed.

(** C6. Idempotent subscribe: after the same connection subscribed to the
    same token twice (both puts going through), the registry holds exactly
    one row for the pair, and it is the only row of that connection; its
    [ttl] is the time of the second subscribe, in seconds, plus 3600; the
    second subscribe adds no row to the table. *)
Theorem C6_subscribe_twice_one_row env1 env2 event d j token :
  SubscribePrice.body event = SubscribePrice.Parsed j →
  Js.prop j "token" = Some (Js.JStr token) →
  token ≠ "" →
  let c := SubscribePrice.connectionId event in
  ddb_fails env1 (OpPut PriceConnectionsTable (subscription c token (subscription_ttl env1)))
    = false →
  ddb_fails env2 (OpPut PriceConnectionsTable (subscription c token (subscription_ttl env2)))
    = false →
  let d1 := db (invoke (SubscribePrice.handler env1 event) d).2 in
  let d2 := db (invoke (SubscribePrice.handler env2 event) d1).2 in
  let row := subscription c token (now_ms env2 `div` 1000 + 3600)%Z in
  filter (λ item, item !! "connectionId" = Some (AttrS c)
                  ∧ item !! "token" = Some (AttrS token))
         (rows PriceConnectionsTable d2) = [row]
  ∧ filter (λ item, item !! "connectionId" = Some (AttrS c))
           (rows PriceConnectionsTable d2) = [row]
  ∧ size (priceConnections d2) = size (priceConnections d1).
Proof.
  intros Hbody Hprop Htoken c Hput1 Hput2 d1 d2 row.
  assert (priceConnections d2
          = <[c := {[ "token" := AttrS token; "ttl" := AttrN (subscription_ttl env2) ]}]>
              (priceConnections d1)) as Hd2.
  { unfold d2. rewrite (subscribe_writes_row env2 event d1 j token) by done.
    fold c. rewrite Hput2. apply put_subscription. }
  assert (is_Some (priceConnections d1 !! c)) as Hd1.
  { unfold d1. rewrite (subscribe_writes_row env1 event d j token) by done.
    fold c. rewrite Hput1, put_subscription. rewrite lookup_insert_eq. by eexists. }
  assert (filter (λ item, item !! "connectionId" = Some (AttrS c))
                 (rows PriceConnectionsTable d2) = [row]) as Hrows.
  { pose proof (rows_with_key PriceConnectionsTable d2 c) as Hk. simpl in Hk.
    rewrite Hk, Hd2, lookup_insert_eq. reflexivity. }
  split_and!.
  - apply (filter_and_singleton _ _ _ _ Hrows). reflexivity.
  - exact Hrows.
  - rewrite Hd2. destruct Hd1 as [attrs Hattrs]. by apply map_size_insert_Some.
Qed.

Lemma C6_witness_resubscribe :
  let event := Sample.subscribe_event "C1" "TOK" in
  let d1 := db (invoke (SubscribePrice.handler (Sample.env 1000000) event) Sample.empty_db).2 in
  let d2 := db (invoke (SubscribePrice.handler (Sample.env 1900000) event) d1).2 in
  filter (λ item, item !! "connectionId" = Some (AttrS "C1")
                  ∧ item !! "token" = Some (AttrS "TOK"))
         (rows PriceConnectionsTable d2) = [subscription "C1" "TOK" 5500]
  ∧ filter (λ item, item !! "connectionId" = Some (AttrS "C1"))
           (rows PriceConnectionsTable d2) = [subscription "C1" "TOK" 5500]
  ∧ size (priceConnections d2) = size (priceConnections d1).
Proof.
  exact (C6_subscribe_twice_one_row (Sample.env 1000000) (Sample.env 1900000)
           (Sample.subscribe_event "C1" "TOK") Sample.empty_db
           (Js.JObj {[ "token" := Js.JStr "TOK" ]}) "TOK"
           eq_refl eq_refl ltac:(discriminate) eq_refl eq_refl).
Defined.

(** C3 fails as stated: one connection subscribes to [TOK1] and then to
    [TOK2]; the table keeps a single row, for [TOK2], and the connection is
    no longer resolved for [TOK1]. *)
Lemma C3_counterexample_second_token_replaces_first :
  let d1 := db (invoke (SubscribePrice.handler (Sample.env 1000000)
                          (Sample.subscribe_event "C1" "TOK1")) Sample.empty_db).2 in
  let d2 := db (invoke (SubscribePrice.handler (Sample.env 1002000)
                          (Sample.subscribe_event "C1" "TOK2")) d1).2 in
  subscribers "TOK1" d1 = ["C1"]
  ∧ rows PriceConnectionsTable d2 = [subscription "C1" "TOK2" 4602]
  ∧ subscribers "TOK1" d2 = []
  ∧ subscribers "TOK2" d2 = ["C1"].
Proof. vm_compute. repeat split. Qed.

(** C3, as the code has it. The table is keyed by [connectionId] alone: after
    a connection subscribed to a first token and then to a different one, it
    has exactly one row, holding the second token and the second expiry; the
    row is read back by [connectionId] and found through the [byToken] index
    under the second token only; and no connection ever has two rows. *)
Theorem C3_one_row_per_connection env1 env2 event1 event2 j1 j2 token1 token2 d :
  SubscribePrice.body event1 = SubscribePrice.Parsed j1 →
  Js.prop j1 "token" = Some (Js.JStr token1) →
  SubscribePrice.body event2 = SubscribePrice.Parsed j2 →
  Js.prop j2 "token" = Some (Js.JStr token2) →
  SubscribePrice.connectionId event2 = SubscribePrice.connectionId event1 →
  token1 ≠ "" → token2 ≠ "" → token1 ≠ token2 →
  let c := SubscribePrice.connectionId event1 in
  ddb_fails env1 (OpPut PriceConnectionsTable (subscription c token1 (subscription_ttl env1)))
    = false →
  ddb_fails env2 (OpPut PriceConnectionsTable (subscription c token2 (subscription_ttl env2)))
    = false →
  let d1 := db (invoke (SubscribePrice.handler env1 event1) d).2 in
  let d2 := db (invoke (SubscribePrice.handler env2 event2) d1).2 in
  let row := subscription c token2 (subscription_ttl env2) in
  filter (λ item, item !! "connectionId" = Some (AttrS c)) (rows PriceConnectionsTable d2)
    = [row]
  ∧ get PriceConnectionsTable c d2 = Some row
  ∧ c ∈ subscribers token2 d2
  ∧ ¬ (c ∈ subscribers token1 d2)
  ∧ (∀ c', length (filter (λ item, item !! "connectionId" = Some (AttrS c'))
                          (rows PriceConnectionsTable d2)) ≤ 1).
Proof.
  intros Hb1 Hp1 Hb2 Hp2 Hc Ht1 Ht2 Hne c Hput1 Hput2 d1 d2 row.
  assert (priceConnections d2
          = <[c := {[ "token" := AttrS token2; "ttl" := AttrN (subscription_ttl env2) ]}]>
              (priceConnections d1)) as Hd2.
  { unfold d2. rewrite (subscribe_writes_row env2 event2 d1 j2 token2) by done.
    rewrite Hc. fold c. rewrite Hput2. apply put_subscription. }
  split_and!.
  - pose proof (rows_with_key PriceConnectionsTable d2 c) as Hk. simpl in Hk.
    rewrite Hk, Hd2, lookup_insert_eq. reflexivity.
  - unfold get. simpl. rewrite Hd2, lookup_insert_eq. reflexivity.
  - apply elem_of_subscribers. rewrite Hd2, lookup_insert_eq. eexists. split; [done|].
    apply lookup_insert_eq.
  - rewrite elem_of_subscribers. rewrite Hd2, lookup_insert_eq.
    intros (attrs & [= <-] & Htok).
    rewrite lookup_insert_eq in Htok. congruence.
  - intros c'. pose proof (rows_with_key PriceConnectionsTable d2 c') as Hk. simpl in Hk.
    rewrite Hk. destruct (priceConnections d2 !! c'); simpl; lia.
Qed.

Lemma C3_witness_two_tokens :
  let d1 := db (invoke (SubscribePrice.handler (Sample.env 1000000)
                          (Sample.subscribe_event "C1" "TOK1")) Sample.empty_db).2 in
  let d2 := db (invoke (SubscribePrice.handler (Sample.env 1002000)
                          (Sample.subscribe_event "C1" "TOK2")) d1).2 in
  filter (λ item, item !! "connectionId" = Some (AttrS "C1")) (rows PriceConnectionsTable d2)
    = [subscription "C1" "TOK2" 4602]
  ∧ get PriceConnectionsTable "C1" d2 = Some (subscription "C1" "TOK2" 4602)
  ∧ "C1" ∈ subscribers "TOK2" d2
  ∧ ¬ ("C1" ∈ subscribers "TOK1" d2)
  ∧ (∀ c', length (filter (λ item, item !! "connectionId" = Some (AttrS c'))
                          (rows PriceConnectionsTable d2)) ≤ 1).
Proof.
  exact (C3_one_row_per_connection (Sample.env 1000000) (Sample.env 1002000)
           (Sample.subscribe_event "C1" "TOK1") (Sample.subscribe_event "C1" "TOK2")
           (Js.JObj {[ "token" := Js.JStr "TOK1" ]}) (Js.JObj {[ "token" := Js.JStr "TOK2" ]})
           "TOK1" "TOK2" Sample.empty_db
           eq_refl eq_refl eq_refl eq_refl eq_refl
           ltac:(discriminate) ltac:(discriminate) ltac:(discriminate) eq_refl eq_refl).
Defined.

(** ** Queue-decoupled fan-out *)

(** A delivery attempt changes neither the registry nor the queue, whatever
    the outcome of the send. *)
Lemma deliver_keeps_store env message c w :
  ∃ tr, BroadcastWorker.deliver env message c w = (Ok tt, mkWorld (db w) (queue w) tr).
Proof.
  unfold BroadcastWorker.deliver. munfold. simpl.
  destruct (post_error env c message) as [status|]; simpl.
  - case_bool_decide; simpl; eauto.
  - eauto.
Qed.

Lemma deliver_all_keeps_store env message targets w :
  ∃ tr, BroadcastWorker.deliver_all env message targets w
        = (Ok tt, mkWorld (db w) (queue w) tr).
Proof.
  revert w. induction targets as [|c targets IH]; intros w; simpl.
  - destruct w. by eexists.
  - unfold mbind, M_bind, bind.
    destruct (deliver_keeps_store env message c w) as [tr ->].
    destruct (IH (mkWorld (db w) (queue w) tr)) as [tr' ->]. by eexists.
Qed.

(** The registry query of the worker, as it is sent. *)
Definition query_subscribers (token : string) : Op :=
  OpQuery PriceConnectionsTable "byToken" BroadcastWorker.keyConditionExpression
          {[ ":token" := AttrS token ]}.

(** The key condition writes the reserved word [token] bare: the store
    refuses it whatever the value. *)
Lemma keyCondition_refused values :
  accepted ∅ values BroadcastWorker.keyConditionExpression = false.
Proof. reflexivity. Qed.

(** The registry query never returns: the call fails on its way, or the
    store refuses the request. *)
Lemma resolveSubscribers_run env message w :
  BroadcastWorker.resolveSubscribers env message w
  = match Js.prop message "token" with
    | Some (Js.JStr token) =>
        (Thrown (if ddb_fails env (query_subscribers token)
                 then ServiceError else ValidationException),
         mkWorld (db w) (queue w) (trace w ++ [Ddb (query_subscribers token)]))
    | _ => (Thrown ValidationException, w)
    end.
Proof.
  unfold BroadcastWorker.resolveSubscribers.
  destruct (Js.prop message "token") as [[| | |token| |]|]; try reflexivity.
  unfold QueryCommand, send. munfold. cbn beta iota. cbn [db queue trace].
  fold (query_subscribers token).
  destruct (ddb_fails env (query_subscribers token)); [reflexivity|].
  cbn beta iota. by rewrite keyCondition_refused.
Qed.

Lemma process_record_keeps_store env record w :
  db (BroadcastWorker.process_record env record w).2 = db w
  ∧ queue (BroadcastWorker.process_record env record w).2 = queue w.
Proof.
  unfold BroadcastWorker.process_record.
  destruct (BroadcastWorker.body record) as [parsed|]; [|by munfold].
  destruct (connectionIds parsed) as [[|c cs]|] eqn:Hids.
  2: { unfold try_catch, mbind, M_bind, bind, mret, M_ret, ret.
       destruct (deliver_all_keeps_store env (message parsed) (c :: cs) w) as [tr Htr].
       rewrite Htr. done. }
  all: unfold try_catch, mbind, M_bind, bind; rewrite resolveSubscribers_run.
  all: destruct (Js.prop (message parsed) "token") as [[]|]; by munfold.
Qed.

(** The worker never writes to the registry: no record, no outcome of a
    send, makes it remove or change a subscription row. *)
Lemma worker_keeps_registry env records w :
  db (BroadcastWorker.handler env records w).2 = db w.
Proof.
  revert w. induction records as [|record records IH]; intros w; [done|].
  simpl. unfold mbind, M_bind, bind.
  pose proof (process_record_keeps_store env record w) as [Hdb _].
  destruct (BroadcastWorker.process_record env record w) as [[[]|e] w']; simpl in *.
  - by rewrite IH.
  - done.
Qed.

(** The sends a worker run attempted, in order. *)
Definition posts (tr : list Effect) : list (string * Js.Json) :=
  omap (λ e, match e with
             | PostToConnection c data => Some (c, data)
             | _ => None
             end) tr.

Definition registry_calls (tr : list Effect) : list Op :=
  omap (λ e, match e with Ddb op => Some op | _ => None end) tr.

(** The line the worker logs for a connection, by the outcome of its send. *)
Definition delivery_log (env : Env) (message : Js.Json) (c : string) : Effect :=
  match post_error env c message with
  | None => ConsoleLog ("Sent message to connection " +:+ c)
  | Some statusCode =>
      if bool_decide (statusCode = Some 410%Z)
      then ConsoleLog ("Stale connection detected: " +:+ c)
      else ConsoleError ("Failed to send to " +:+ c +:+ ":")
  end.

Lemma deliver_run env message c w :
  BroadcastWorker.deliver env message c w
  = (Ok tt, mkWorld (db w) (queue w)
                    (trace w ++ [PostToConnection c message; delivery_log env message c])).
Proof.
  unfold BroadcastWorker.deliver, delivery_log. munfold. cbn beta iota. cbn [db queue trace].
  destruct (post_error env c message) as [status|]; cbn beta iota; cbn [db queue trace].
  - destruct (decide (status = Some 410%Z)) as [->|Hne].
    + rewrite !bool_decide_eq_true_2 by done. cbn [db queue trace].
      by rewrite <- app_assoc.
    + rewrite (bool_decide_eq_false_2 (SendError status = _)) by congruence.
      rewrite (bool_decide_eq_false_2 (status = _)) by done. cbn [db queue trace].
      by rewrite <- app_assoc.
  - by rewrite <- app_assoc.
Qed.

Lemma deliver_all_posts env message targets w :
  ∃ tr, BroadcastWorker.deliver_all env message targets w
        = (Ok tt, mkWorld (db w) (queue w) (trace w ++ tr))
        ∧ posts tr = (λ c, (c, message)) <$> targets
        ∧ registry_calls tr = []
        ∧ ∀ c, c ∈ targets → delivery_log env message c ∈ tr.
Proof.
  revert w. induction targets as [|c targets IH]; intros w; cbn [BroadcastWorker.deliver_all].
  - exists []. rewrite app_nil_r. split_and!; [by destruct w|done..|].
    by intros c ?%elem_of_nil.
  - unfold mbind, M_bind, bind. rewrite deliver_run.
    destruct (IH (mkWorld (db w) (queue w)
                    (trace w ++ [PostToConnection c message; delivery_log env message c])))
      as (tr2 & -> & Hp2 & Hr2 & Hlog2).
    cbn [db queue trace].
    exists ([PostToConnection c message; delivery_log env message c] ++ tr2).
    rewrite app_assoc. split_and!; [done| | |].
    + unfold posts in *. rewrite omap_app, Hp2. unfold delivery_log.
      destruct (post_error env c message) as [status|]; [case_bool_decide|]; done.
    + unfold registry_calls in *. rewrite omap_app, Hr2. unfold delivery_log.
      destruct (post_error env c message) as [status|]; [case_bool_decide|]; done.
    + intros c' [->|Hin]%elem_of_cons.
      * apply elem_of_app. left. apply list_elem_of_further, list_elem_of_here.
      * apply elem_of_app. right. by apply Hlog2.
Qed.

(** C2, on the code. A record names the connections to deliver to, and the
    send to one of them fails because the connection is gone. The worker
    attempts one send per connection and logs the failure: as a stale
    connection when the error carries the status code 410, as a failed send
    otherwise. In both cases it makes no call to the registry: the store is
    as it was, and the gone connection is still listed for every token it
    was subscribed to. *)
Theorem C2_gone_connection_stays_subscribed env record parsed c cs gone statusCode token d :
  BroadcastWorker.body record = Some parsed →
  connectionIds parsed = Some (c :: cs) →
  gone ∈ c :: cs →
  post_error env gone (message parsed) = Some statusCode →
  gone ∈ subscribers token d →
  let '(result, w) := invoke (BroadcastWorker.handler env [record]) d in
  result = Ok tt
  ∧ posts (trace w) = (λ c', (c', message parsed)) <$> (c :: cs)
  ∧ (if bool_decide (statusCode = Some 410%Z)
     then ConsoleLog ("Stale connection detected: " +:+ gone)
     else ConsoleError ("Failed to send to " +:+ gone +:+ ":")) ∈ trace w
  ∧ registry_calls (trace w) = []
  ∧ db w = d
  ∧ gone ∈ subscribers token (db w).
Proof.
  intros Hbody Hids Hgone Hpost Hsub.
  cbn [BroadcastWorker.handler]. unfold invoke, mbind, M_bind, bind.
  unfold BroadcastWorker.process_record. rewrite Hbody, Hids.
  unfold try_catch, mbind, M_bind, bind, mret, M_ret, ret.
  set (w1 := mkWorld d [] []).
  destruct (deliver_all_posts env (message parsed) (c :: cs) w1)
    as (tr & Hrun & Hp & Hr & Hlog).
  rewrite Hrun. unfold w1. cbn [db queue trace app]. split_and!; [done..| |done|done|done].
  specialize (Hlog gone Hgone). unfold delivery_log in Hlog. by rewrite Hpost in Hlog.
Qed.

Lemma C2_witness_gone_connection :
  let '(result, w) :=
    invoke (BroadcastWorker.handler (Sample.env_C2_gone 1003000)
              [Sample.targeted_record ["C1"; "C2"]])
           Sample.two_subscribers_db in
  result = Ok tt
  ∧ posts (trace w) = (λ c', (c', Sample.price_update)) <$> ["C1"; "C2"]
  ∧ ConsoleLog "Stale connection detected: C2" ∈ trace w
  ∧ registry_calls (trace w) = []
  ∧ db w = Sample.two_subscribers_db
  ∧ "C2" ∈ subscribers "TOK" (db w).
Proof.
  apply (C2_gone_connection_stays_subscribed (Sample.env_C2_gone 1003000)
           (Sample.targeted_record ["C1"; "C2"])
           (mkQueueBody (Some ["C1"; "C2"]) Sample.price_update) "C1" ["C2"] "C2"
           (Some 410%Z) "TOK" Sample.two_subscribers_db); try reflexivity.
  - apply list_elem_of_further, list_elem_of_here.
  - assert (subscribers "TOK" Sample.two_subscribers_db = ["C1"; "C2"]) as ->
      by (vm_compute; reflexivity).
    apply list_elem_of_further, list_elem_of_here.
Defined.

(** The run of the witness, evaluated: [C1] receives the message, the send
    to [C2] is answered 410 and only logged, and both connections are still
    listed for [TOK]. With an error that carries no status code the line
    logged is the other one, and the store is the same. *)
Example worker_sample_run :
  let env := Sample.env_C2_gone 1003000 in
  let run := invoke (BroadcastWorker.handler env [Sample.targeted_record ["C1"; "C2"]])
                    Sample.two_subscribers_db in
  let env' := mkEnv (λ _, false) (λ _ _ _, Verified) (λ _ _, Some None) 1003000 "nonce-1"
                    Sample.names (λ _, []) in
  let run' := invoke (BroadcastWorker.handler env' [Sample.targeted_record ["C2"]])
                     Sample.two_subscribers_db in
  subscribers "TOK" Sample.two_subscribers_db = ["C1"; "C2"]
  ∧ post_error env "C2" Sample.price_update = Some (Some 410%Z)
  ∧ run.1 = Ok tt
  ∧ posts (trace run.2) = [("C1", Sample.price_update); ("C2", Sample.price_update)]
  ∧ omap (λ e, match e with ConsoleLog line => Some line | _ => None end) (trace run.2)
    = ["Sent message to connection C1"; "Stale connection detected: C2"]
  ∧ db run.2 = Sample.two_subscribers_db
  ∧ subscribers "TOK" (db run.2) = ["C1"; "C2"]
  ∧ trace run'.2 = [PostToConnection "C2" Sample.price_update;
                    ConsoleError "Failed to send to C2:"]
  ∧ subscribers "TOK" (db run'.2) = ["C1"; "C2"].
Proof. vm_compute. repeat split. Qed.

(** ** Edge engine *)

(** The sends a run attempted, in order: the socket and the data. *)
Definition socket_sends (effects : list Edge.Effect) : list (nat * Js.Json) :=
  omap (λ e, match e with
             | Edge.SocketSend socket data => Some (socket, data)
             | _ => None
             end) effects.

Lemma send_to_all_sends env messageStr entries :
  socket_sends (Edge.send_to_all env messageStr entries).2
  = (λ kv, (Edge.socket kv.2, messageStr)) <$> entries.
Proof.
  induction entries as [|[id info] entries IH]; [done|]. simpl.
  destruct (Edge.send_to_all env messageStr entries) as [closed effects].
  destruct (Edge.send_throws env (Edge.socket info) messageStr); simpl in *; by rewrite IH.
Qed.

Lemma send_to_all_closed env messageStr entries id :
  id ∈ (Edge.send_to_all env messageStr entries).1 ↔
  ∃ info, (id, info) ∈ entries ∧ Edge.send_throws env (Edge.socket info) messageStr = true.
Proof.
  induction entries as [|[id' info'] entries IH]; simpl.
  - split; [by intros ?%elem_of_nil | by intros (? & ?%elem_of_nil & _)].
  - destruct (Edge.send_to_all env messageStr entries) as [closed effects].
    destruct (Edge.send_throws env (Edge.socket info') messageStr) eqn:Hthrows; simpl in *.
    + rewrite elem_of_cons, IH. split.
      * intros [->|(info & Hin & Ht)].
        -- exists info'. split; [left|done].
        -- exists info. split; [by right|done].
      * intros (info & [[= -> ->]|Hin]%elem_of_cons & Ht); [by left|].
        right. by exists info.
    + rewrite IH. split.
      * intros (info & Hin & Ht). exists info. split; [by right|done].
      * intros (info & [[= -> ->]|Hin]%elem_of_cons & Ht); [congruence|].
        by exists info.
Qed.

Lemma lookup_delete_all {A} (ids : list string) (m : gmap string A) (k : string) :
  foldl (λ m id, delete id m) m ids !! k = if decide (k ∈ ids) then None else m !! k.
Proof.
  revert m. induction ids as [|id ids IH]; intros m; cbn [foldl].
  - destruct (decide (k ∈ [])) as [Hin|]; [|done]. by apply elem_of_nil in Hin.
  - rewrite IH. destruct (decide (k ∈ ids)) as [Hin|Hnin].
    + destruct (decide (k ∈ id :: ids)) as [|Hn]; [done|]. destruct Hn. by right.
    + destruct (decide (k = id)) as [->|Hne].
      * rewrite lookup_delete_eq. destruct (decide (id ∈ id :: ids)) as [|Hn]; [done|].
        destruct Hn. left.
      * rewrite lookup_delete_ne by done.
        destruct (decide (k ∈ id :: ids)) as [[?|?]%elem_of_cons|]; done.
Qed.

Lemma sends_app effects1 effects2 :
  socket_sends (effects1 ++ effects2) = socket_sends effects1 ++ socket_sends effects2.
Proof. apply omap_app. Qed.

(** C9. [BroadcastRoom.broadcast] attempts one send, of the same data, to
    the socket of every connection of the room; afterwards the connection
    map holds exactly the connections whose send did not throw; on an empty
    room nothing is sent and the room stays empty. *)
Theorem C9_broadcast_keeps_live_sockets env message room :
  let messageStr := Edge.with_timestamp message (Edge.now env) in
  let '(room', effects) := Edge.broadcast env message room in
  socket_sends effects
    = (λ kv, (Edge.socket kv.2, messageStr)) <$> map_to_list (Edge.connections room)
  ∧ Edge.connections room'
    = filter (λ kv, Edge.send_throws env (Edge.socket kv.2) messageStr = false)
             (Edge.connections room)
  ∧ Edge.lastActivity room' = Edge.lastActivity room
  ∧ (∀ t, Edge.broadcast env message (Edge.mkRoom ∅ t)
          = (Edge.mkRoom ∅ t, [Edge.ConsoleLog "Broadcast to 0 connections"])).
Proof.
  intros messageStr. unfold Edge.broadcast. fold messageStr.
  pose proof (send_to_all_sends env messageStr (map_to_list (Edge.connections room))) as Hsends.
  pose proof (send_to_all_closed env messageStr (map_to_list (Edge.connections room)))
    as Hclosed.
  destruct (Edge.send_to_all env messageStr (map_to_list (Edge.connections room)))
    as [closed effects]. simpl in *.
  split_and!.
  - rewrite sends_app, Hsends. simpl. apply app_nil_r.
  - apply map_eq. intros id. unfold Edge.delete_all. rewrite lookup_delete_all.
    destruct (decide (id ∈ closed)) as [Hin|Hnin].
    + apply Hclosed in Hin as (info & Hin & Ht). apply elem_of_map_to_list in Hin.
      symmetry. apply map_lookup_filter_None. right. intros info' Hinfo'. simpl.
      simplify_eq. congruence.
    + destruct (Edge.connections room !! id) as [info|] eqn:Hid.
      * symmetry. apply map_lookup_filter_Some. split; [done|]. simpl.
        destruct (Edge.send_throws env (Edge.socket info) messageStr) eqn:Ht; [|done].
        exfalso. apply Hnin, Hclosed. exists info. split; [|done].
        by apply elem_of_map_to_list.
      * symmetry. apply map_lookup_filter_None. by left.
  - done.
  - intros t. reflexivity.
Qed.

(** C10. A [POST /broadcast/<token>] request whose [Authorization] header is
    not the text [Bearer ] followed by the configured secret is answered 401
    by the worker: no durable object is called and no room changes. *)
Theorem C10_unauthorized_publish_refused env request rooms token :
  Js.startsWith (Edge.pathname request) "/broadcast/" = true →
  Edge.method request = "POST" →
  Js.split "/" (Edge.pathname request) !! 2%nat = Some token →
  token ≠ "" →
  Edge.headers request !! "Authorization" ≠ Some ("Bearer " +:+ Edge.WEBHOOK_SECRET env) →
  Edge.fetch env request rooms
  = (Edge.Responded (Edge.mkResponse 401 (Edge.Text "Unauthorized")), rooms, []).
Proof.
  intros Hpath Hmethod Htoken Hne Hauth. unfold Edge.fetch.
  rewrite Hpath, Hmethod, Htoken. simpl.
  rewrite (bool_decide_eq_false_2 (token = "")) by done. simpl.
  by rewrite bool_decide_eq_false_2.
Qed.

Lemma C10_witness_wrong_secret :
  Edge.fetch (Sample.edge_env 5000) (Sample.publish_request "Bearer guess")
             {[ "TOK" := Sample.edge_room ]}
  = (Edge.Responded (Edge.mkResponse 401 (Edge.Text "Unauthorized")),
     {[ "TOK" := Sample.edge_room ]}, []).
Proof.
  exact (C10_unauthorized_publish_refused (Sample.edge_env 5000)
           (Sample.publish_request "Bearer guess") {[ "TOK" := Sample.edge_room ]} "TOK"
           eq_refl eq_refl eq_refl ltac:(discriminate) ltac:(discriminate)).
Defined.

(** ** Publisher *)

(** The edge call did not succeed: it threw, or the response is not OK. *)
Definition edge_failed (outcome : PriceWebhook.FetchOutcome) : bool :=
  match outcome with
  | PriceWebhook.FetchThrew => true
  | PriceWebhook.FetchResponse ok _ _ => negb ok
  end.

Definition webhook_token (event : PriceWebhook.Event) : string :=
  default "DROP" (Js.or (PriceWebhook.headers event !! "x-token") (Some "DROP")).

Definition webhook_message (pub : PriceWebhook.Publisher) (event : PriceWebhook.Event)
    (payload : PriceWebhook.Payload) : Js.Json :=
  PriceWebhook.broadcastMessage (webhook_token event)
    (PriceWebhook.calculatePrice pub (PriceWebhook.accounts payload)) payload.

Definition fetches (tr : list Effect) : list (string * string * Js.Json) :=
  omap (λ e, match e with Fetch url auth body => Some (url, auth, body) | _ => None end) tr.

Definition queue_sends (tr : list Effect) : list QueueBody :=
  omap (λ e, match e with SqsSend body => Some body | _ => None end) tr.

(** The item written to the time-series table. *)
Definition timeseries_item (env : Env) (pub : PriceWebhook.Publisher)
    (event : PriceWebhook.Event) (payload : PriceWebhook.Payload) (date : string) : Js.Json :=
  Js.JObj
    {[ "tokenDate" := Js.JStr (webhook_token event +:+ "#" +:+ date);
       "timestamp" := Js.JNum (PriceWebhook.timestamp payload);
       "price" := Js.JNum (PriceWebhook.calculatePrice pub (PriceWebhook.accounts payload));
       "source" := Js.JStr "amm";
       "slot" := Js.JNum (PriceWebhook.slot payload);
       "txSignature" := Js.JStr (PriceWebhook.txSignature payload);
       "ttl" := Js.JNum (pretty (now_ms env `div` 1000 + 14 * 24 * 60 * 60)%Z) ]}.

Lemma sends_so_far_snoc tr e :
  PriceWebhook.sends_so_far (tr ++ [e])
  = (PriceWebhook.sends_so_far tr + if PriceWebhook.is_SqsSend e then 1 else 0)%nat.
Proof.
  unfold PriceWebhook.sends_so_far. rewrite filter_app, length_app. f_equal.
  destruct e; reflexivity.
Qed.

(** The three outcomes of a send to the queue. *)
Lemma broadcastViaSQS_accepted pub message w :
  PriceWebhook.sqs_send pub (PriceWebhook.sends_so_far (trace w)) = PriceWebhook.SqsSuccessful →
  PriceWebhook.broadcastViaSQS pub message w
  = (Ok tt, mkWorld (db w) (queue w ++ [mkQueueBody (Some []) message])
                    (trace w ++ [SqsSend (mkQueueBody (Some []) message)])).
Proof. intros H. unfold PriceWebhook.broadcastViaSQS. by rewrite H. Qed.

Lemma broadcastViaSQS_refused pub message w :
  PriceWebhook.sqs_send pub (PriceWebhook.sends_so_far (trace w)) = PriceWebhook.SqsThrew →
  PriceWebhook.broadcastViaSQS pub message w
  = (Thrown ServiceError,
     mkWorld (db w) (queue w) (trace w ++ [SqsSend (mkQueueBody (Some []) message)])).
Proof. intros H. unfold PriceWebhook.broadcastViaSQS. by rewrite H. Qed.

Lemma broadcastViaSQS_entry_failed pub message w :
  PriceWebhook.sqs_send pub (PriceWebhook.sends_so_far (trace w)) = PriceWebhook.SqsFailed →
  PriceWebhook.broadcastViaSQS pub message w
  = (Ok tt,
     mkWorld (db w) (queue w) (trace w ++ [SqsSend (mkQueueBody (Some []) message)])).
Proof. intros H. unfold PriceWebhook.broadcastViaSQS. by rewrite H. Qed.

(** An authorized webhook whose payload is valid but whose timestamp is
    outside the range of [Date]: the handler answers 500 before it writes,
    fetches or queues anything. *)
Lemma webhook_invalid_date env pub event payload d :
  Js.or (PriceWebhook.headers event !! "authorization")
        (PriceWebhook.headers event !! "Authorization")
    = Some ("Bearer " +:+ PriceWebhook.HeliusApiKey pub) →
  PriceWebhook.body event = PriceWebhook.Valid payload →
  PriceWebhook.dateStr pub (PriceWebhook.timestamp payload) = None →
  invoke (PriceWebhook.handler env pub event) d
  = (Ok (mkResponse 500 (ErrorBody "Internal server error")),
     mkWorld d [] [ConsoleError "Error processing price webhook:"]).
Proof.
  intros Hauth Hbody Hdate.
  unfold PriceWebhook.handler. rewrite Hauth, Hbody.
  rewrite bool_decide_eq_true_2 by done.
  unfold invoke, try_catch, mbind, M_bind, bind, mret, M_ret, ret.
  cbn [negb]. rewrite Hdate. reflexivity.
Qed.

(** An authorized, valid webhook with a timestamp in range, whose
    time-series write goes through: the handler answers by the outcome of
    the engine choice. *)
Lemma webhook_reaches_broadcast env pub event payload d date :
  Js.or (PriceWebhook.headers event !! "authorization")
        (PriceWebhook.headers event !! "Authorization")
    = Some ("Bearer " +:+ PriceWebhook.HeliusApiKey pub) →
  PriceWebhook.body event = PriceWebhook.Valid payload →
  PriceWebhook.dateStr pub (PriceWebhook.timestamp payload) = Some date →
  PriceWebhook.timeseries_fails pub = false →
  invoke (PriceWebhook.handler env pub event) d
    = match PriceWebhook.broadcast pub (webhook_token event) (webhook_message pub event payload)
              (mkWorld d [] [TimeSeriesPut (timeseries_item env pub event payload date)]) with
      | (Ok _, w) => (Ok (mkResponse 200 (StatusBody "accepted")), w)
      | (Thrown e, w) =>
          (Ok (mkResponse (if bool_decide (e = ZodError) then 400 else 500)
                 (ErrorBody (if bool_decide (e = ZodError) then "Invalid payload"
                             else "Internal server error"))),
           mkWorld (db w) (queue w)
                   (trace w ++ [ConsoleError "Error processing price webhook:"]))
      end.
Proof.
  intros Hauth Hbody Hdate Hts.
  unfold PriceWebhook.handler. rewrite Hauth, Hbody, Hts.
  rewrite bool_decide_eq_true_2 by done.
  unfold invoke, try_catch, mbind, M_bind, bind, emit, mret, M_ret, ret.
  cbn [negb]. rewrite Hdate.
  fold (webhook_token event). fold (webhook_message pub event payload).
  fold (timeseries_item env pub event payload date).
  cbn [negb db queue trace app].
  destruct (PriceWebhook.broadcast _ _ _ _) as [[[]|e] w]; [reflexivity|].
  by case_bool_decide.
Qed.

(** The engine choice when the edge engine is configured and its call
    fails: the message is handed to the queue after the edge call, and the
    outcome is that of the first send to the queue unless that send throws
    on the non-OK path, where the [catch] sends once more. *)
Lemma broadcast_edge_failed pub token message w url secret :
  PriceWebhook.USE_EDGE_BROADCAST pub = Some "true" →
  PriceWebhook.EDGE_BROADCAST_URL pub = Some url → url ≠ "" →
  PriceWebhook.EDGE_BROADCAST_SECRET pub = Some secret → secret ≠ "" →
  edge_failed (PriceWebhook.fetch pub (url +:+ "/broadcast/" +:+ token)
                 ("Bearer " +:+ secret) message) = true →
  ∃ tr,
    fetches tr = [(url +:+ "/broadcast/" +:+ token, "Bearer " +:+ secret, message)]
    ∧ queue_sends tr = []
    ∧ PriceWebhook.broadcast pub token message w
      = match PriceWebhook.broadcastViaSQS pub message
                (mkWorld (db w) (queue w) (trace w ++ tr)) with
        | (Thrown e, w1) =>
            match PriceWebhook.fetch pub (url +:+ "/broadcast/" +:+ token)
                    ("Bearer " +:+ secret) message with
            | PriceWebhook.FetchResponse _ _ (Some _) =>
                PriceWebhook.broadcastViaSQS pub message
                  (mkWorld (db w1) (queue w1) (trace w1 ++ [ConsoleError "Edge broadcast error:"]))
            | _ => (Thrown e, w1)
            end
        | run => run
        end.
Proof.
  intros Huse Hurl Hurl' Hsecret Hsecret' Hfail.
  unfold PriceWebhook.broadcast. rewrite Huse, Hurl, Hsecret.
  rewrite bool_decide_eq_true_2 by done.
  unfold Js.truthy. rewrite !bool_decide_eq_false_2 by done.
  cbn [negb andb].
  unfold try_catch, mbind, M_bind, bind, emit, throw. cbn [db queue trace].
  destruct (PriceWebhook.fetch pub _ _ message) as [|ok status [text|]];
    simpl in Hfail; [|apply negb_true_iff in Hfail; subst ok; cbn [negb]..].
  - exists [Fetch (url +:+ "/broadcast/" +:+ token) ("Bearer " +:+ secret) message;
            ConsoleError "Edge broadcast error:"].
    split_and!; [reflexivity..|].
    cbn [db queue trace]. rewrite <- app_assoc. cbn [app].
    by destruct (PriceWebhook.broadcastViaSQS _ _ _) as [[[]|e] w1].
  - exists [Fetch (url +:+ "/broadcast/" +:+ token) ("Bearer " +:+ secret) message;
            ConsoleError ("Edge broadcast failed: " +:+ pretty status +:+ " " +:+ text)].
    split_and!; [reflexivity..|].
    cbn [db queue trace]. rewrite <- app_assoc. cbn [app].
    by destruct (PriceWebhook.broadcastViaSQS _ _ _) as [[[]|e] w1].
  - exists [Fetch (url +:+ "/broadcast/" +:+ token) ("Bearer " +:+ secret) message;
            ConsoleError "Edge broadcast error:"].
    split_and!; [reflexivity..|].
    cbn [db queue trace]. rewrite <- app_assoc. cbn [app].
    by destruct (PriceWebhook.broadcastViaSQS _ _ _) as [[[]|e] w1].
Qed.

Lemma sends_so_far_none tr :
  queue_sends tr = [] → PriceWebhook.sends_so_far tr = 0%nat.
Proof.
  unfold queue_sends, PriceWebhook.sends_so_far.
  induction tr as [|e tr IH]; [done|]. cbn [omap list_omap].
  destruct e; cbn [PriceWebhook.is_SqsSend]; try discriminate.
  all: intros H; rewrite filter_cons; cbn [PriceWebhook.is_SqsSend];
    destruct (decide (false = true)); [done|]; by apply IH.
Qed.

(** C8, on the code. The edge engine is configured and its call fails; the
    publisher sends the message to the queue, and the queue answers the
    batch with the entry under [Failed]. The handler does not read that
    answer: it reports 200 "accepted" while the message is on no queue,
    after a single attempt. *)
Theorem C8_failed_batch_entry_drops_message env pub event payload d url secret date :
  Js.or (PriceWebhook.headers event !! "authorization")
        (PriceWebhook.headers event !! "Authorization")
    = Some ("Bearer " +:+ PriceWebhook.HeliusApiKey pub) →
  PriceWebhook.body event = PriceWebhook.Valid payload →
  PriceWebhook.dateStr pub (PriceWebhook.timestamp payload) = Some date →
  PriceWebhook.timeseries_fails pub = false →
  PriceWebhook.USE_EDGE_BROADCAST pub = Some "true" →
  PriceWebhook.EDGE_BROADCAST_URL pub = Some url → url ≠ "" →
  PriceWebhook.EDGE_BROADCAST_SECRET pub = Some secret → secret ≠ "" →
  let message := webhook_message pub event payload in
  let edgeUrl := url +:+ "/broadcast/" +:+ webhook_token event in
  edge_failed (PriceWebhook.fetch pub edgeUrl ("Bearer " +:+ secret) message) = true →
  PriceWebhook.sqs_send pub 0 = PriceWebhook.SqsFailed →
  let '(result, w) := invoke (PriceWebhook.handler env pub event) d in
  result = Ok (mkResponse 200 (StatusBody "accepted"))
  ∧ fetches (trace w) = [(edgeUrl, "Bearer " +:+ secret, message)]
  ∧ queue_sends (trace w) = [mkQueueBody (Some []) message]
  ∧ queue w = []
  ∧ db w = d.
Proof.
  intros Hauth Hbody Hdate Hts Huse Hurl Hurl' Hsecret Hsecret' message edgeUrl Hfail Hsqs.
  rewrite (webhook_reaches_broadcast env pub event payload d date Hauth Hbody Hdate Hts).
  fold message. set (w0 := mkWorld d [] _).
  destruct (broadcast_edge_failed pub (webhook_token event) message w0 url secret)
    as (tr & Hfetches & Hsends & ->); [done..|].
  rewrite broadcastViaSQS_entry_failed.
  - unfold w0. cbn [db queue trace].
    unfold fetches, queue_sends in *. rewrite !omap_app, Hfetches, Hsends. done.
  - unfold w0. cbn [db queue trace].
    rewrite (sends_so_far_none ([_] ++ tr)); [done|].
    unfold queue_sends in *. by rewrite omap_app, Hsends.
Qed.

Lemma C8_witness_failed_batch_entry :
  let pub := Sample.publisher_with (Some "true")
               (PriceWebhook.FetchResponse false 503 (Some "unavailable"))
               (λ _, PriceWebhook.SqsFailed) in
  let message := webhook_message pub Sample.webhook_event Sample.webhook_payload in
  let '(result, w) :=
    invoke (PriceWebhook.handler (Sample.env 1000000) pub Sample.webhook_event)
           Sample.empty_db in
  result = Ok (mkResponse 200 (StatusBody "accepted"))
  ∧ fetches (trace w) = [("https://edge.example/broadcast/TOK", "Bearer s3cret", message)]
  ∧ queue_sends (trace w) = [mkQueueBody (Some []) message]
  ∧ queue w = []
  ∧ db w = Sample.empty_db.
Proof.
  apply (C8_failed_batch_entry_drops_message (Sample.env 1000000)
           (Sample.publisher_with (Some "true")
              (PriceWebhook.FetchResponse false 503 (Some "unavailable"))
              (λ _, PriceWebhook.SqsFailed))
           Sample.webhook_event Sample.webhook_payload Sample.empty_db
           "https://edge.example" "s3cret" "19700101");
    try reflexivity; discriminate.
Defined.

(** ** Expiry sweeper *)

(** Runs the monad as far as the next table operation. *)
Ltac mrun :=
  repeat progress
    (unfold mbind, M_bind, bind, try_catch, DeleteCommand, ScanCommand, send, emit,
       read_db, write_db, throw, mret, M_ret, ret;
     cbn beta iota; cbn [db queue trace]).

(** The filter writes the reserved word [ttl] bare: the store refuses the
    Scan whatever the values and whatever the table holds. *)
Lemma filterExpression_refused values :
  accepted ∅ values Sweeper.filterExpression = false.
Proof. reflexivity. Qed.

(** The Scan of a table, as the sweeper sends it. *)
Definition scan_of (now : Z) (t : TableRef) (index : nat) : Op :=
  OpScan t Sweeper.filterExpression {[ ":now" := AttrN now ]} index.

Definition description_of (t : TableRef) : string :=
  match t with
  | PriceConnectionsTable => "Price connections"
  | BalanceConnectionsTable => "Balance connections"
  | WebsocketNonceTable => "WebSocket nonces"
  end.

(** What a pass does on one table: the first Scan is attempted and fails,
    and the failure is logged. *)
Definition refused_sweep (now : Z) (t : TableRef) : list Effect :=
  [ConsoleLog ("Sweeping " +:+ description_of t +:+ "...");
   Ddb (scan_of now t 0);
   ConsoleError ("Error sweeping " +:+ description_of t +:+ ":")].

Lemma sweep_pages_refused env tbl now index page later n w :
  ∃ e, Sweeper.sweep_pages env tbl now index page later n w
       = (Thrown e,
          mkWorld (db w) (queue w)
                  (trace w ++ [Ddb (scan_of now (Sweeper.resource tbl) index)])).
Proof.
  destruct later as [|next later]; cbn [Sweeper.sweep_pages]; mrun.
  all: fold (scan_of now (Sweeper.resource tbl) index).
  all: destruct (ddb_fails env _); mrun; [by eexists|].
  all: rewrite filterExpression_refused; by eexists.
Qed.

Lemma sweep_table_refused env now t w :
  Sweeper.sweep_table env now
    (Sweeper.mkSweepTable t (table_name env t) (description_of t)) w
  = (Ok tt, mkWorld (db w) (queue w) (trace w ++ refused_sweep now t)).
Proof.
  unfold Sweeper.sweep_table. mrun. cbn [Sweeper.resource Sweeper.description].
  set (w0 := mkWorld _ _ _).
  assert (∃ e, (match scan_pages env t with
                | [] => Sweeper.sweep_pages env
                          (Sweeper.mkSweepTable t (table_name env t) (description_of t))
                          now 0 [] [] 0
                | page :: later =>
                    Sweeper.sweep_pages env
                      (Sweeper.mkSweepTable t (table_name env t) (description_of t))
                      now 0 page later 0
                end) w0
               = (Thrown e, mkWorld (db w0) (queue w0)
                                    (trace w0 ++ [Ddb (scan_of now t 0)]))) as [e ->].
  { destruct (scan_pages env t) as [|page later]; apply sweep_pages_refused. }
  unfold w0, refused_sweep. cbn [db queue trace]. by rewrite <- !app_assoc.
Qed.

(** C7, on the code. Whatever the tables hold, a pass of the sweeper removes
    nothing: on each of the three tables the first Scan is refused, the
    failure is logged and the pass moves on. A row whose [ttl] is below the
    current time is still in its table after the pass. *)
Theorem C7_refused_scan_sweeps_nothing env d :
  let now := (now_ms env `div` 1000)%Z in
  let '(result, w) := invoke (Sweeper.handler env) d in
  result = Ok tt
  ∧ db w = d
  ∧ trace w
    = [ConsoleLog "Starting TTL sweeper job"]
      ++ refused_sweep now PriceConnectionsTable
      ++ refused_sweep now BalanceConnectionsTable
      ++ refused_sweep now WebsocketNonceTable
      ++ [ConsoleLog "TTL sweeper job completed"]
  ∧ ∀ t k attrs ttl,
      table t d !! k = Some attrs → attrs !! "ttl" = Some (AttrN ttl) → (ttl < now)%Z →
      table t (db w) !! k = Some attrs.
Proof.
  intros now. unfold Sweeper.handler. fold now.
  change (Sweeper.tablesToSweep env)
    with [Sweeper.mkSweepTable PriceConnectionsTable (table_name env PriceConnectionsTable)
            (description_of PriceConnectionsTable);
          Sweeper.mkSweepTable BalanceConnectionsTable (table_name env BalanceConnectionsTable)
            (description_of BalanceConnectionsTable);
          Sweeper.mkSweepTable WebsocketNonceTable (table_name env WebsocketNonceTable)
            (description_of WebsocketNonceTable)].
  cbn [Sweeper.sweep_tables]. unfold invoke.
  unfold mbind, M_bind, bind, emit, mret, M_ret, ret. cbn [db queue trace].
  rewrite !sweep_table_refused. cbn [db queue trace].
  split_and!; [done|done| |by intros t k attrs ttl Hk _ _].
  by rewrite <- !app_assoc.
Qed.

(** The pass on the sample store, evaluated at second 5000: the rows [C1]
    (ttl 4600) and [B1] (ttl 100) are expired, and they are still there. *)
Example sweeper_sample_result :
  let w := (invoke (Sweeper.handler Sample.sweep_env) Sample.sweep_db).2 in
  db w = Sample.sweep_db
  ∧ priceConnections (db w) !! "C1" = Some {[ "token" := AttrS "TOK"; "ttl" := AttrN 4600 ]}
  ∧ balanceConnections (db w) !! "B1" = Some {[ "wallet" := AttrS "W"; "ttl" := AttrN 100 ]}
  ∧ omap (λ e, match e with ConsoleError line => Some line | _ => None end) (trace w)
    = ["Error sweeping Price connections:";
       "Error sweeping Balance connections:";
       "Error sweeping WebSocket nonces:"].
Proof. vm_compute. repeat split. Qed.

(* ===================================================================== *)
(** * Further properties of the handlers *)
(* ===================================================================== *)

(** ** Nonce issuer and authenticator *)

Definition nonce_item (wallet nonce : string) (ttl : Z) : Item :=
  {[ "wallet" := AttrS wallet; "nonce" := AttrS nonce; "ttl" := AttrN ttl ]}.

Lemma nonce_handler_run env event d wallet :
  Js.field (Nonce.queryStringParameters event) "wallet" = Some wallet →
  wallet ≠ "" →
  let ttl := (now_ms env `div` 1000 + 600)%Z in
  let item := nonce_item wallet (randomUUID env) ttl in
  invoke (Nonce.handler env event) d
  = if ddb_fails env (OpPut WebsocketNonceTable item) then
      (Ok (mkResponse 500 (ErrorBody "Internal server error")),
       mkWorld d [] [Ddb (OpPut WebsocketNonceTable item);
                     ConsoleError "Error generating nonce:"])
    else
      (Ok (mkResponse 200 (NonceBody wallet (randomUUID env) (ttl * 1000))),
       mkWorld (put WebsocketNonceTable wallet item d) []
               [Ddb (OpPut WebsocketNonceTable item)]).
Proof.
  intros Hw Hne ttl item. unfold Nonce.handler. rewrite Hw.
  rewrite bool_decide_eq_false_2 by done.
  fold ttl. fold (nonce_item wallet (randomUUID env) ttl). fold item.
  munfold. cbn beta iota. cbn [db queue trace app].
  destruct (ddb_fails env (OpPut WebsocketNonceTable item)); [reflexivity|].
  cbn beta iota. cbn [db queue trace].
  assert (item_key WebsocketNonceTable item = Some wallet) as ->.
  { unfold item_key, item, nonce_item. cbn [hashKey]. by rewrite lookup_insert_eq. }
  reflexivity.
Qed.

(** Issuing a nonce stores it under the wallet with a [ttl] ten minutes
    ahead, in place of any nonce the wallet had, answers with the expiry in
    milliseconds, and leaves every other wallet and table alone. *)
Theorem nonce_issue_replaces_stored_nonce env event d wallet :
  Js.field (Nonce.queryStringParameters event) "wallet" = Some wallet →
  wallet ≠ "" →
  let ttl := (now_ms env `div` 1000 + 600)%Z in
  ddb_fails env (OpPut WebsocketNonceTable (nonce_item wallet (randomUUID env) ttl)) = false →
  let '(result, w) := invoke (Nonce.handler env event) d in
  result = Ok (mkResponse 200 (NonceBody wallet (randomUUID env) (ttl * 1000)))
  ∧ get WebsocketNonceTable wallet (db w) = Some (nonce_item wallet (randomUUID env) ttl)
  ∧ (∀ other, other ≠ wallet → websocketNonces (db w) !! other = websocketNonces d !! other)
  ∧ priceConnections (db w) = priceConnections d
  ∧ balanceConnections (db w) = balanceConnections d.
Proof.
  intros Hw Hne ttl Hput.
  rewrite (nonce_handler_run env event d wallet Hw Hne). fold ttl. rewrite Hput.
  cbn [db]. split_and!; [done| | |done..].
  - unfold get, put. cbn [table set_table websocketNonces hashKey].
    rewrite lookup_insert_eq. reflexivity.
  - intros other Hother. unfold put. cbn [table set_table websocketNonces].
    by rewrite lookup_insert_ne.
Qed.

Lemma nonce_issue_witness :
  let '(result, w) :=
    invoke (Nonce.handler (Sample.env 1000000) (Sample.nonce_event "W")) Sample.issued_db in
  result = Ok (mkResponse 200 (NonceBody "W" "nonce-1" 1600000))
  ∧ get WebsocketNonceTable "W" (db w) = Some (nonce_item "W" "nonce-1" 1600)
  ∧ (∀ other, other ≠ "W" →
       websocketNonces (db w) !! other = websocketNonces Sample.issued_db !! other)
  ∧ priceConnections (db w) = priceConnections Sample.issued_db
  ∧ balanceConnections (db w) = balanceConnections Sample.issued_db.
Proof.
  exact (nonce_issue_replaces_stored_nonce (Sample.env 1000000) (Sample.nonce_event "W")
           Sample.issued_db "W" eq_refl ltac:(discriminate) eq_refl).
Defined.

(** A nonce request without a wallet (absent or empty) is answered 400
    before the store is called. *)
Theorem nonce_issue_requires_wallet env event d :
  Js.truthy (Js.field (Nonce.queryStringParameters event) "wallet") = false →
  invoke (Nonce.handler env event) d
  = (Ok (mkResponse 400 (ErrorBody "wallet parameter is required")), mkWorld d [] []).
Proof.
  intros H. unfold Nonce.handler.
  destruct (Js.field (Nonce.queryStringParameters event) "wallet") as [wallet|]; [|done].
  simpl in H. apply negb_false_iff in H. by rewrite H.
Qed.

Lemma nonce_issue_requires_wallet_witness :
  invoke (Nonce.handler (Sample.env 1000000) (Sample.nonce_event "")) Sample.empty_db
  = (Ok (mkResponse 400 (ErrorBody "wallet parameter is required")),
     mkWorld Sample.empty_db [] []).
Proof.
  exact (nonce_issue_requires_wallet (Sample.env 1000000) (Sample.nonce_event "")
           Sample.empty_db eq_refl).
Defined.

Lemma stored_nonce_put wallet nonce ttl d :
  stored_nonce (put WebsocketNonceTable wallet (nonce_item wallet nonce ttl) d) wallet
  = Some (AttrS nonce).
Proof.
  unfold stored_nonce, put. cbn [table set_table websocketNonces].
  rewrite lookup_insert_eq. reflexivity.
Qed.

(** Issue, then connect: the nonce just issued to a wallet, presented with
    a signature that verifies, admits the connection and is consumed. *)
Theorem issued_nonce_admits env_issue env issue event d wallet signature :
  Js.field (Nonce.queryStringParameters issue) "wallet" = Some wallet →
  let nonce := randomUUID env_issue in
  let ttl := (now_ms env_issue `div` 1000 + 600)%Z in
  ddb_fails env_issue (OpPut WebsocketNonceTable (nonce_item wallet nonce ttl)) = false →
  Connect.param event "wallet" = Some wallet →
  Connect.param event "signature" = Some signature →
  Connect.param event "message" = Some nonce →
  wallet ≠ "" → signature ≠ "" → nonce ≠ "" →
  verify env nonce signature wallet = Verified →
  ddb_fails env (get_nonce wallet) = false →
  ddb_fails env (delete_nonce wallet) = false →
  let d1 := db (invoke (Nonce.handler env_issue issue) d).2 in
  let '(result, w) := invoke (Connect.handler env event) d1 in
  result = Ok (mkResponse 200 (MessageBody "Connected"))
  ∧ websocketNonces (db w) !! wallet = None.
Proof.
  intros Hiw nonce ttl Hput Hw Hs Hm Hw' Hs' Hn' Hv Hget Hdel d1.
  rewrite (handler_authenticates env event d1 wallet signature nonce) by done.
  unfold authenticate. rewrite Hget.
  assert (stored_nonce d1 wallet = Some (AttrS nonce)) as ->.
  { unfold d1. rewrite (nonce_handler_run env_issue issue d wallet Hiw Hw').
    fold nonce ttl. rewrite Hput. cbn [snd db]. apply stored_nonce_put. }
  rewrite bool_decide_eq_true_2 by done. rewrite Hv, Hdel. split; [done|].
  cbn [db]. unfold delete_item. cbn [table set_table websocketNonces].
  apply lookup_delete_eq.
Qed.

Lemma issued_nonce_admits_witness :
  let d1 := db (invoke (Nonce.handler (Sample.env 1000000) (Sample.nonce_event "W"))
                       Sample.empty_db).2 in
  let '(result, w) :=
    invoke (Connect.handler (Sample.env 1005000) (Sample.connect_event "nonce-1")) d1 in
  result = Ok (mkResponse 200 (MessageBody "Connected"))
  ∧ websocketNonces (db w) !! "W" = None.
Proof.
  exact (issued_nonce_admits (Sample.env 1000000) (Sample.env 1005000)
           (Sample.nonce_event "W") (Sample.connect_event "nonce-1") Sample.empty_db
           "W" "c2ln" eq_refl eq_refl eq_refl eq_refl eq_refl
           ltac:(discriminate) ltac:(discriminate) ltac:(discriminate)
           eq_refl eq_refl eq_refl).
Defined.

(** The authenticator does not look at the expiry of the nonce: a stored
    nonce whose [ttl] is already past still admits the connection that
    presents it with a valid signature. *)
Theorem expired_nonce_still_admits env event d wallet signature message attrs ttl :
  Connect.param event "wallet" = Some wallet →
  Connect.param event "signature" = Some signature →
  Connect.param event "message" = Some message →
  wallet ≠ "" → signature ≠ "" → message ≠ "" →
  websocketNonces d !! wallet = Some attrs →
  attrs !! "nonce" = Some (AttrS message) →
  attrs !! "ttl" = Some (AttrN ttl) →
  (ttl < now_ms env `div` 1000)%Z →
  verify env message signature wallet = Verified →
  ddb_fails env (get_nonce wallet) = false →
  ddb_fails env (delete_nonce wallet) = false →
  (invoke (Connect.handler env event) d).1 = Ok (mkResponse 200 (MessageBody "Connected")).
Proof.
  intros Hw Hs Hm Hw' Hs' Hm' Hrow Hnonce Httl Hpast Hv Hget Hdel.
  rewrite (handler_authenticates env event d wallet signature message) by done.
  unfold authenticate. rewrite Hget.
  assert (stored_nonce d wallet = Some (AttrS message)) as ->
    by (unfold stored_nonce; by rewrite Hrow).
  rewrite bool_decide_eq_true_2 by done. by rewrite Hv, Hdel.
Qed.

Lemma expired_nonce_still_admits_witness :
  (invoke (Connect.handler (Sample.env 99000000) (Sample.connect_event "nonce-1"))
          Sample.issued_db).1
  = Ok (mkResponse 200 (MessageBody "Connected")).
Proof.
  exact (expired_nonce_still_admits (Sample.env 99000000) (Sample.connect_event "nonce-1")
           Sample.issued_db "W" "c2ln" "nonce-1"
           {[ "nonce" := AttrS "nonce-1"; "ttl" := AttrN 1600 ]} 1600
           eq_refl eq_refl eq_refl
           ltac:(discriminate) ltac:(discriminate) ltac:(discriminate)
           eq_refl eq_refl eq_refl eq_refl eq_refl eq_refl eq_refl).
Defined.

(** Every run of the connect handler, on any request and store. *)
Lemma connect_handler_cases env event d :
  invoke (Connect.handler env event) d
  = (Ok (mkResponse 401 (ErrorBody "Missing authentication parameters")), mkWorld d [] [])
  ∨ ∃ wallet signature message,
      invoke (Connect.handler env event) d
      = authenticate env (Connect.connectionId event) wallet signature message d.
Proof.
  destruct (Js.truthy (Connect.param event "wallet") && Js.truthy (Connect.param event "signature")
            && Js.truthy (Connect.param event "message")) eqn:Hp.
  - right. apply andb_true_iff in Hp as [Hp Hm]. apply andb_true_iff in Hp as [Hp Hs].
    apply truthy_Some in Hp as (wallet & Hw1 & Hw2).
    apply truthy_Some in Hs as (signature & Hs1 & Hs2).
    apply truthy_Some in Hm as (message & Hm1 & Hm2).
    exists wallet, signature, message. by apply handler_authenticates.
  - left. by apply handler_missing_parameters.
Qed.

(** The connect handler always answers, with status 200, 401 or 500, and
    the store changes only when it answers 200: no rejected or failed
    attempt consumes or alters a nonce. *)
Theorem connect_answers_and_rejections_keep_store env event d :
  let '(result, w) := invoke (Connect.handler env event) d in
  ∃ response,
    result = Ok response
    ∧ (statusCode response = 200 ∨ statusCode response = 401 ∨ statusCode response = 500)%Z
    ∧ (statusCode response = 200%Z ∨ db w = d).
Proof.
  destruct (connect_handler_cases env event d) as [->|(wallet & signature & message & ->)].
  - eexists. split; [done|]. cbn. split; [right; by left | by right].
  - unfold authenticate, internal_error.
    destruct (ddb_fails env (get_nonce wallet)); [|case_bool_decide];
      [| destruct (verify env message signature wallet);
         [destruct (ddb_fails env (delete_nonce wallet))|..] |];
      eexists; (split; [reflexivity|]); cbn; split; auto.
Qed.

(** A request that lacks one of [wallet], [signature], [message] (absent or
    empty, in the headers and in the query string) is refused before the
    store or the signature check is touched. *)
Theorem connect_requires_three_parameters env event d name :
  name ∈ ["wallet"; "signature"; "message"] →
  Js.truthy (Connect.param event name) = false →
  invoke (Connect.handler env event) d
  = (Ok (mkResponse 401 (ErrorBody "Missing authentication parameters")), mkWorld d [] []).
Proof.
  intros Hname Hmissing. apply handler_missing_parameters.
  repeat (apply elem_of_cons in Hname as [->|Hname]); [..|by apply elem_of_nil in Hname];
    rewrite Hmissing; by rewrite ?andb_false_r.
Qed.

Lemma connect_requires_three_parameters_witness :
  invoke (Connect.handler (Sample.env 1000000)
            (Connect.mkEvent "conn-1" (Some {[ "wallet" := "W"; "message" := "nonce-1" ]}) None))
         Sample.issued_db
  = (Ok (mkResponse 401 (ErrorBody "Missing authentication parameters")),
     mkWorld Sample.issued_db [] []).
Proof.
  apply (connect_requires_three_parameters _ _ _ "signature").
  - set_solver.
  - reflexivity.
Defined.

(** ** Subscribe and disconnect *)

(** The token a [subscribePrice] body carries, when the schema accepts it. *)
Definition usable_token (body : SubscribePrice.RawBody) : option string :=
  match body with
  | SubscribePrice.Parsed j =>
      match Js.prop j "token" with
      | Some (Js.JStr token) => if bool_decide (token = "") then None else Some token
      | _ => None
      end
  | _ => None
  end.

(** A subscribe request whose body is JSON (or absent) and carries no
    non-empty string [token] is answered 400, the error is pushed to the
    connection, and the registry is not written. *)
Theorem subscribe_rejects_missing_token env event d :
  SubscribePrice.body event ≠ SubscribePrice.Malformed →
  usable_token (SubscribePrice.body event) = None →
  let c := SubscribePrice.connectionId event in
  let text := "Invalid request: token is required" in
  invoke (SubscribePrice.handler env event) d
  = (Ok (mkResponse 400 (ErrorBody text)),
     mkWorld d []
       ([ConsoleError "Subscribe price error:";
         PostToConnection c (SubscribePrice.errorPayload text)]
        ++ match post_error env c (SubscribePrice.errorPayload text) with
           | Some _ => [ConsoleError "Failed to send error message:"]
           | None => []
           end)).
Proof.
  intros Hjson Htoken c text.
  assert (∃ j, SubscribePrice.parse_body (SubscribePrice.body event) = ret j
               ∧ SubscribePrice.SubscribePriceSchema_parse j = throw ZodError)
    as (j & Hparse & Hschema).
  { unfold usable_token in Htoken. unfold SubscribePrice.SubscribePriceSchema_parse.
    destruct (SubscribePrice.body event) as [| |j]; [|done|].
    - exists (Js.JObj ∅). split; [done|]. cbn [Js.prop]. by rewrite lookup_empty.
    - exists j. split; [done|].
      destruct (Js.prop j "token") as [[]|]; try reflexivity.
      by destruct (bool_decide _). }
  unfold SubscribePrice.handler. fold c. rewrite Hparse.
  unfold mbind at 1 2. unfold M_bind, bind at 1 2. unfold ret at 1. rewrite Hschema.
  munfold. cbn. rewrite (bool_decide_eq_true_2 (ZodError = ZodError)) by done.
  fold text.
  destruct (post_error env c (SubscribePrice.errorPayload text)); reflexivity.
Qed.

Lemma subscribe_rejects_missing_token_witness :
  invoke (SubscribePrice.handler (Sample.env 1000000)
            (SubscribePrice.mkEvent "C1" SubscribePrice.NoBody)) Sample.two_subscribers_db
  = (Ok (mkResponse 400 (ErrorBody "Invalid request: token is required")),
     mkWorld Sample.two_subscribers_db []
       [ConsoleError "Subscribe price error:";
        PostToConnection "C1"
          (SubscribePrice.errorPayload "Invalid request: token is required")]).
Proof.
  exact (subscribe_rejects_missing_token (Sample.env 1000000)
           (SubscribePrice.mkEvent "C1" SubscribePrice.NoBody) Sample.two_subscribers_db
           ltac:(discriminate) eq_refl).
Defined.

(** The row is written before the confirmation is sent: when the put goes
    through and the confirmation send fails, the request is answered 400
    "Subscription failed" although the subscription is stored. *)
Theorem subscribe_failed_confirmation_keeps_row env event d token status :
  usable_token (SubscribePrice.body event) = Some token →
  let c := SubscribePrice.connectionId event in
  let row := subscription c token (subscription_ttl env) in
  ddb_fails env (OpPut PriceConnectionsTable row) = false →
  post_error env c (SubscribePrice.confirmationMessage token) = Some status →
  let '(result, w) := invoke (SubscribePrice.handler env event) d in
  result = Ok (mkResponse 400 (ErrorBody "Subscription failed"))
  ∧ get PriceConnectionsTable c (db w) = Some row
  ∧ c ∈ subscribers token (db w).
Proof.
  intros Htoken c row Hput Hpost.
  unfold usable_token in Htoken.
  destruct (SubscribePrice.body event) as [| |j] eqn:Hbody; try done.
  destruct (Js.prop j "token") as [[| | |token'| |]|] eqn:Hprop; try done.
  case_bool_decide as Hne; [done|]. simplify_eq.
  pose proof (subscribe_writes_row env event d j token Hbody Hprop Hne) as Hdb.
  cbn zeta in Hdb. fold c row in Hdb. rewrite Hput in Hdb.
  destruct (invoke (SubscribePrice.handler env event) d) as [result w] eqn:Hrun.
  cbn [snd] in Hdb. split_and!.
  - revert Hrun. unfold SubscribePrice.handler, SubscribePrice.parse_body,
      SubscribePrice.SubscribePriceSchema_parse. rewrite Hbody.
    munfold. cbn beta iota. rewrite Hprop, (bool_decide_eq_false_2 _ Hne).
    fold c. fold (subscription_ttl env). fold (subscription c token (subscription_ttl env)).
    fold row. cbn beta iota. cbn [db queue trace]. rewrite Hput. cbn beta iota.
    cbn [db queue trace].
    destruct (item_key PriceConnectionsTable row); cbn beta iota; cbn [db queue trace];
      rewrite ?Hpost; cbn beta iota; cbn [db queue trace];
      destruct (post_error env c (SubscribePrice.errorPayload _)); by intros [= <- <-].
  - rewrite Hdb. unfold get. cbn [table]. unfold row.
    rewrite put_subscription, lookup_insert_eq. reflexivity.
  - apply elem_of_subscribers. rewrite Hdb. unfold row.
    rewrite put_subscription, lookup_insert_eq.
    eexists. split; [done|]. apply lookup_insert_eq.
Qed.

Lemma subscribe_failed_confirmation_witness :
  let '(result, w) :=
    invoke (SubscribePrice.handler (Sample.env_sends_fail 1000000)
              (Sample.subscribe_event "C1" "TOK")) Sample.empty_db in
  result = Ok (mkResponse 400 (ErrorBody "Subscription failed"))
  ∧ get PriceConnectionsTable "C1" (db w) = Some (subscription "C1" "TOK" 4600)
  ∧ "C1" ∈ subscribers "TOK" (db w).
Proof.
  exact (subscribe_failed_confirmation_keeps_row (Sample.env_sends_fail 1000000)
           (Sample.subscribe_event "C1" "TOK") Sample.empty_db "TOK" (Some 500%Z)
           eq_refl eq_refl eq_refl).
Defined.

(** After a subscribe whose put went through, the connection is resolved for
    the token it just named and for no other token, and every other
    connection is resolved exactly as before. *)
Theorem subscribe_moves_only_its_connection env event d token :
  usable_token (SubscribePrice.body event) = Some token →
  let c := SubscribePrice.connectionId event in
  ddb_fails env (OpPut PriceConnectionsTable (subscription c token (subscription_ttl env)))
    = false →
  let d' := db (invoke (SubscribePrice.handler env event) d).2 in
  (∀ t, c ∈ subscribers t d' ↔ t = token)
  ∧ (∀ c' t, c' ≠ c → c' ∈ subscribers t d' ↔ c' ∈ subscribers t d).
Proof.
  intros Htoken c Hput d'.
  unfold usable_token in Htoken.
  destruct (SubscribePrice.body event) as [| |j] eqn:Hbody; try done.
  destruct (Js.prop j "token") as [[| | |token'| |]|] eqn:Hprop; try done.
  case_bool_decide as Hne; [done|]. simplify_eq.
  assert (priceConnections d'
          = <[c := {[ "token" := AttrS token; "ttl" := AttrN (subscription_ttl env) ]}]>
              (priceConnections d)) as Hd'.
  { unfold d'. rewrite (subscribe_writes_row env event d j token Hbody Hprop Hne).
    fold c. rewrite Hput. apply put_subscription. }
  split.
  - intros t. rewrite elem_of_subscribers, Hd', lookup_insert_eq. split.
    + intros (attrs & [= <-] & Ht). rewrite lookup_insert_eq in Ht. congruence.
    + intros ->. eexists. split; [done|]. apply lookup_insert_eq.
  - intros c' t Hc'. rewrite !elem_of_subscribers, Hd'. by rewrite lookup_insert_ne.
Qed.

Lemma subscribe_moves_only_its_connection_witness :
  let d' := db (invoke (SubscribePrice.handler (Sample.env 1000000)
                          (Sample.subscribe_event "C1" "OTHER"))
                       Sample.two_subscribers_db).2 in
  (∀ t, "C1" ∈ subscribers t d' ↔ t = "OTHER")
  ∧ (∀ c' t, c' ≠ "C1" →
       c' ∈ subscribers t d' ↔ c' ∈ subscribers t Sample.two_subscribers_db).
Proof.
  exact (subscribe_moves_only_its_connection (Sample.env 1000000)
           (Sample.subscribe_event "C1" "OTHER") Sample.two_subscribers_db "OTHER"
           eq_refl eq_refl).
Defined.

Definition delete_connection (t : TableRef) (c : string) : Op :=
  OpDelete t {[ "connectionId" := AttrS c ]}.

(** Every run of the disconnect handler: the two deletes are attempted one
    after the other, each on its own; a delete that fails is logged and
    leaves its table as it was; the answer is 200 "Disconnected" in all
    cases, and the nonce table is not touched. *)
Theorem disconnect_deletes_independently env event d :
  let c := Disconnect.connectionId event in
  let '(result, w) := invoke (Disconnect.handler env event) d in
  result = Ok (mkResponse 200 (MessageBody "Disconnected"))
  ∧ priceConnections (db w)
    = (if ddb_fails env (delete_connection PriceConnectionsTable c)
       then priceConnections d else delete c (priceConnections d))
  ∧ balanceConnections (db w)
    = (if ddb_fails env (delete_connection BalanceConnectionsTable c)
       then balanceConnections d else delete c (balanceConnections d))
  ∧ websocketNonces (db w) = websocketNonces d
  ∧ Ddb (delete_connection PriceConnectionsTable c) ∈ trace w
  ∧ Ddb (delete_connection BalanceConnectionsTable c) ∈ trace w.
Proof.
  intros c. unfold Disconnect.handler, delete_connection. fold c.
  munfold. cbn beta iota. cbn [db queue trace app].
  pose proof (key_value_singleton PriceConnectionsTable c) as Hk1.
  pose proof (key_value_singleton BalanceConnectionsTable c) as Hk2.
  cbn [hashKey] in Hk1, Hk2.
  destruct (ddb_fails env (OpDelete PriceConnectionsTable _)) eqn:H1;
    cbn beta iota; cbn [db queue trace app]; rewrite ?Hk1;
    cbn beta iota; cbn [db queue trace app].
  all: destruct (ddb_fails env (OpDelete BalanceConnectionsTable _)) eqn:H2;
    cbn beta iota; cbn [db queue trace app]; rewrite ?Hk2;
    cbn beta iota; cbn [db queue trace app].
  all: split_and!; [reflexivity..| |].
  all: repeat first [apply list_elem_of_here | apply list_elem_of_further].
Qed.

(** Subscribe, then disconnect (both going through): the connection is
    resolved for no token, and when it had no row before the subscribe the
    price table is back to what it was. *)
Theorem subscribe_then_disconnect env1 env2 event bye d token :
  usable_token (SubscribePrice.body event) = Some token →
  let c := SubscribePrice.connectionId event in
  Disconnect.connectionId bye = c →
  ddb_fails env1 (OpPut PriceConnectionsTable (subscription c token (subscription_ttl env1)))
    = false →
  ddb_fails env2 (delete_connection PriceConnectionsTable c) = false →
  let d1 := db (invoke (SubscribePrice.handler env1 event) d).2 in
  let d2 := db (invoke (Disconnect.handler env2 bye) d1).2 in
  c ∈ subscribers token d1
  ∧ (∀ t, ¬ (c ∈ subscribers t d2))
  ∧ priceConnections d2 = delete c (priceConnections d).
Proof.
  intros Htoken c Hbye Hput Hdel d1 d2.
  pose proof (subscribe_moves_only_its_connection env1 event d token Htoken Hput) as [Hc _].
  fold c d1 in Hc.
  pose proof (disconnect_deletes_independently env2 bye d1) as Hrun.
  cbn zeta in Hrun. rewrite Hbye in Hrun. fold d2 in Hrun.
  destruct (invoke (Disconnect.handler env2 bye) d1) as [result w] eqn:Hinv.
  destruct Hrun as (_ & Hprice & _). rewrite Hdel in Hprice.
  assert (d2 = db w) as Hd2 by reflexivity. rewrite <- Hd2 in Hprice.
  split_and!.
  - by apply Hc.
  - intros t Hin. apply elem_of_subscribers in Hin as (attrs & Hrow & _).
    by rewrite Hprice, lookup_delete_eq in Hrow.
  - rewrite Hprice. unfold usable_token in Htoken.
    destruct (SubscribePrice.body event) as [| |j] eqn:Hbody; try done.
    destruct (Js.prop j "token") as [[| | |token'| |]|] eqn:Hprop; try done.
    case_bool_decide as Hne; [done|]. simplify_eq.
    unfold d1. rewrite (subscribe_writes_row env1 event d j token Hbody Hprop Hne).
    rewrite Hput, put_subscription. apply delete_insert_eq.
Qed.

Lemma subscribe_then_disconnect_witness :
  let d1 := db (invoke (SubscribePrice.handler (Sample.env 1000000)
                          (Sample.subscribe_event "C3" "TOK"))
                       Sample.two_subscribers_db).2 in
  let d2 := db (invoke (Disconnect.handler (Sample.env 1001000) (Disconnect.mkEvent "C3"))
                       d1).2 in
  "C3" ∈ subscribers "TOK" d1
  ∧ (∀ t, ¬ ("C3" ∈ subscribers t d2))
  ∧ priceConnections d2 = delete "C3" (priceConnections Sample.two_subscribers_db).
Proof.
  exact (subscribe_then_disconnect (Sample.env 1000000) (Sample.env 1001000)
           (Sample.subscribe_event "C3" "TOK") (Disconnect.mkEvent "C3")
           Sample.two_subscribers_db "TOK" eq_refl eq_refl eq_refl eq_refl).
Defined.

(** ** Fan-out worker *)

(** A record that names its connections is delivered to exactly those, one
    send each, without any call to the registry. *)
Theorem worker_uses_given_connections env record parsed c cs d :
  BroadcastWorker.body record = Some parsed →
  connectionIds parsed = Some (c :: cs) →
  let '(result, w) := invoke (BroadcastWorker.handler env [record]) d in
  result = Ok tt
  ∧ posts (trace w) = (λ c', (c', message parsed)) <$> (c :: cs)
  ∧ registry_calls (trace w) = []
  ∧ db w = d.
Proof.
  intros Hbody Hids.
  cbn [BroadcastWorker.handler]. unfold invoke, mbind, M_bind, bind.
  unfold BroadcastWorker.process_record. rewrite Hbody, Hids.
  unfold try_catch, mbind, M_bind, bind, mret, M_ret, ret.
  set (w1 := mkWorld d [] []).
  destruct (deliver_all_posts env (message parsed) (c :: cs) w1) as (tr & Hrun & Hp & Hr & _).
  rewrite Hrun. unfold w1. cbn [db queue trace app]. done.
Qed.

Lemma worker_uses_given_connections_witness :
  let '(result, w) :=
    invoke (BroadcastWorker.handler (Sample.env 1003000) [Sample.targeted_record ["C9"; "C1"]])
           Sample.two_subscribers_db in
  result = Ok tt
  ∧ posts (trace w) = (λ c', (c', Sample.price_update)) <$> ["C9"; "C1"]
  ∧ registry_calls (trace w) = []
  ∧ db w = Sample.two_subscribers_db.
Proof.
  exact (worker_uses_given_connections (Sample.env 1003000)
           (Sample.targeted_record ["C9"; "C1"])
           (mkQueueBody (Some ["C9"; "C1"]) Sample.price_update) "C9" ["C1"]
           Sample.two_subscribers_db eq_refl eq_refl).
Defined.

(** The run of the worker on a batch whose first record names no
    connection. *)
Lemma worker_query_run env record rest parsed token d :
  BroadcastWorker.body record = Some parsed →
  connectionIds parsed = None ∨ connectionIds parsed = Some [] →
  Js.prop (message parsed) "token" = Some (Js.JStr token) →
  invoke (BroadcastWorker.handler env (record :: rest)) d
  = (Thrown (if ddb_fails env (query_subscribers token)
             then ServiceError else ValidationException),
     mkWorld d [] [Ddb (query_subscribers token);
                   ConsoleError "Error processing SQS message:"]).
Proof.
  intros Hbody Hids Htoken.
  cbn [BroadcastWorker.handler]. unfold invoke, mbind, M_bind, bind.
  unfold BroadcastWorker.process_record. rewrite Hbody.
  assert (match connectionIds parsed with
          | Some (c :: cs) => ret (c :: cs)
          | _ => BroadcastWorker.resolveSubscribers env (message parsed)
          end = BroadcastWorker.resolveSubscribers env (message parsed)) as ->
    by (by destruct Hids as [-> | ->]).
  unfold try_catch, mbind, M_bind, bind. rewrite resolveSubscribers_run, Htoken.
  reflexivity.
Qed.

(** A record that names no connection makes the worker query the registry,
    and that query never succeeds: the call fails on its way, or the store
    refuses its key condition, which writes the reserved word [token] bare.
    Nothing is sent, the error is logged and rethrown, and the records
    after it in the batch are not processed: the invocation fails as a
    whole, whatever the registry holds. *)
Theorem worker_query_failure_fails_batch env record rest parsed token d :
  BroadcastWorker.body record = Some parsed →
  connectionIds parsed = None ∨ connectionIds parsed = Some [] →
  Js.prop (message parsed) "token" = Some (Js.JStr token) →
  invoke (BroadcastWorker.handler env (record :: rest)) d
  = (Thrown (if ddb_fails env (query_subscribers token)
             then ServiceError else ValidationException),
     mkWorld d [] [Ddb (query_subscribers token);
                   ConsoleError "Error processing SQS message:"]).
Proof. apply worker_query_run. Qed.

Lemma worker_query_failure_witness :
  invoke (BroadcastWorker.handler (Sample.env_store_down 1003000)
            [Sample.price_record; Sample.price_record])
         Sample.two_subscribers_db
  = (Thrown ServiceError,
     mkWorld Sample.two_subscribers_db []
       [Ddb (query_subscribers "TOK");
        ConsoleError "Error processing SQS message:"]).
Proof.
  exact (worker_query_failure_fails_batch (Sample.env_store_down 1003000)
           Sample.price_record [Sample.price_record]
           (mkQueueBody (Some []) Sample.price_update) "TOK" Sample.two_subscribers_db
           eq_refl (or_intror eq_refl) eq_refl).
Defined.

(** The same batch with the store answering: the query is refused, and the
    two subscribers of [TOK] receive nothing. *)
Example worker_query_refused_sample :
  subscribers "TOK" Sample.two_subscribers_db = ["C1"; "C2"]
  ∧ invoke (BroadcastWorker.handler (Sample.env 1003000) [Sample.price_record])
           Sample.two_subscribers_db
    = (Thrown ValidationException,
       mkWorld Sample.two_subscribers_db []
         [Ddb (query_subscribers "TOK");
          ConsoleError "Error processing SQS message:"]).
Proof. split; vm_compute; reflexivity. Qed.

(** ** Publisher: the other paths *)

(** A webhook without the expected [Authorization] header is answered 401;
    nothing is written, fetched or queued. *)
Theorem webhook_requires_api_key env pub event d :
  Js.or (PriceWebhook.headers event !! "authorization")
        (PriceWebhook.headers event !! "Authorization")
    ≠ Some ("Bearer " +:+ PriceWebhook.HeliusApiKey pub) →
  invoke (PriceWebhook.handler env pub event) d
  = (Ok (mkResponse 401 (ErrorBody "Unauthorized")),
     mkWorld d [] [ConsoleError "Unauthorized webhook request"]).
Proof.
  intros Hauth. unfold PriceWebhook.handler.
  rewrite bool_decide_eq_false_2 by done. reflexivity.
Qed.

Lemma webhook_requires_api_key_witness :
  invoke (PriceWebhook.handler (Sample.env 1000000) (Sample.publisher PriceWebhook.FetchThrew)
            (PriceWebhook.mkEvent {[ "authorization" := "Bearer other" ]} PriceWebhook.Invalid))
         Sample.empty_db
  = (Ok (mkResponse 401 (ErrorBody "Unauthorized")),
     mkWorld Sample.empty_db [] [ConsoleError "Unauthorized webhook request"]).
Proof.
  apply webhook_requires_api_key. intros H. vm_compute in H. discriminate.
Defined.

(** An authorized webhook whose body the schema refuses is answered 400
    "Invalid payload", one whose body is not JSON 500; in both cases nothing
    is written, fetched or queued. *)
Theorem webhook_rejects_bad_payload env pub event d :
  Js.or (PriceWebhook.headers event !! "authorization")
        (PriceWebhook.headers event !! "Authorization")
    = Some ("Bearer " +:+ PriceWebhook.HeliusApiKey pub) →
  (∀ payload, PriceWebhook.body event ≠ PriceWebhook.Valid payload) →
  invoke (PriceWebhook.handler env pub event) d
  = (Ok (match PriceWebhook.body event with
         | PriceWebhook.Malformed => mkResponse 500 (ErrorBody "Internal server error")
         | _ => mkResponse 400 (ErrorBody "Invalid payload")
         end),
     mkWorld d [] [ConsoleError "Error processing price webhook:"]).
Proof.
  intros Hauth Hbad. unfold PriceWebhook.handler. rewrite Hauth.
  rewrite bool_decide_eq_true_2 by done.
  destruct (PriceWebhook.body event) as [| |payload]; [reflexivity..|].
  by destruct (Hbad payload).
Qed.

Lemma webhook_rejects_bad_payload_witness :
  invoke (PriceWebhook.handler (Sample.env 1000000) (Sample.publisher PriceWebhook.FetchThrew)
            (PriceWebhook.mkEvent {[ "Authorization" := "Bearer helius-key" ]}
                                  PriceWebhook.Invalid))
         Sample.empty_db
  = (Ok (mkResponse 400 (ErrorBody "Invalid payload")),
     mkWorld Sample.empty_db [] [ConsoleError "Error processing price webhook:"]).
Proof.
  exact (webhook_rejects_bad_payload (Sample.env 1000000)
           (Sample.publisher PriceWebhook.FetchThrew)
           (PriceWebhook.mkEvent {[ "Authorization" := "Bearer helius-key" ]}
                                 PriceWebhook.Invalid)
           Sample.empty_db eq_refl ltac:(discriminate)).
Defined.

(** A payload the schema accepts can still carry a timestamp outside the
    range of [Date]: the date of the partition key cannot be computed, and
    the webhook is answered 500 with nothing written, fetched or queued. *)
Theorem webhook_rejects_out_of_range_timestamp env pub event payload d :
  Js.or (PriceWebhook.headers event !! "authorization")
        (PriceWebhook.headers event !! "Authorization")
    = Some ("Bearer " +:+ PriceWebhook.HeliusApiKey pub) →
  PriceWebhook.body event = PriceWebhook.Valid payload →
  PriceWebhook.dateStr pub (PriceWebhook.timestamp payload) = None →
  invoke (PriceWebhook.handler env pub event) d
  = (Ok (mkResponse 500 (ErrorBody "Internal server error")),
     mkWorld d [] [ConsoleError "Error processing price webhook:"]).
Proof. apply webhook_invalid_date. Qed.

Lemma webhook_rejects_out_of_range_timestamp_witness :
  invoke (PriceWebhook.handler (Sample.env 1000000) (Sample.publisher PriceWebhook.FetchThrew)
            (PriceWebhook.mkEvent {[ "authorization" := "Bearer helius-key" ]}
               (PriceWebhook.Valid (PriceWebhook.mkPayload "SWAP" [] "5sig" "42" "1e13"))))
         Sample.empty_db
  = (Ok (mkResponse 500 (ErrorBody "Internal server error")),
     mkWorld Sample.empty_db [] [ConsoleError "Error processing price webhook:"]).
Proof.
  exact (webhook_rejects_out_of_range_timestamp (Sample.env 1000000)
           (Sample.publisher PriceWebhook.FetchThrew)
           (PriceWebhook.mkEvent {[ "authorization" := "Bearer helius-key" ]}
              (PriceWebhook.Valid (PriceWebhook.mkPayload "SWAP" [] "5sig" "42" "1e13")))
           (PriceWebhook.mkPayload "SWAP" [] "5sig" "42" "1e13")
           Sample.empty_db eq_refl eq_refl eq_refl).
Defined.

(** With the edge engine configured and answering OK, the message goes to
    the edge worker once, with the bearer secret, and nothing is put on the
    queue. *)
Theorem edge_success_skips_queue env pub event payload d url secret date status text :
  Js.or (PriceWebhook.headers event !! "authorization")
        (PriceWebhook.headers event !! "Authorization")
    = Some ("Bearer " +:+ PriceWebhook.HeliusApiKey pub) →
  PriceWebhook.body event = PriceWebhook.Valid payload →
  PriceWebhook.dateStr pub (PriceWebhook.timestamp payload) = Some date →
  PriceWebhook.timeseries_fails pub = false →
  PriceWebhook.USE_EDGE_BROADCAST pub = Some "true" →
  PriceWebhook.EDGE_BROADCAST_URL pub = Some url → url ≠ "" →
  PriceWebhook.EDGE_BROADCAST_SECRET pub = Some secret → secret ≠ "" →
  let message := webhook_message pub event payload in
  let edgeUrl := url +:+ "/broadcast/" +:+ webhook_token event in
  PriceWebhook.fetch pub edgeUrl ("Bearer " +:+ secret) message
    = PriceWebhook.FetchResponse true status text →
  let '(result, w) := invoke (PriceWebhook.handler env pub event) d in
  result = Ok (mkResponse 200 (StatusBody "accepted"))
  ∧ fetches (trace w) = [(edgeUrl, "Bearer " +:+ secret, message)]
  ∧ queue_sends (trace w) = []
  ∧ queue w = [].
Proof.
  intros Hauth Hbody Hdate Hts Huse Hurl Hurl' Hsecret Hsecret' message edgeUrl Hfetch.
  rewrite (webhook_reaches_broadcast env pub event payload d date Hauth Hbody Hdate Hts).
  fold message. unfold PriceWebhook.broadcast. rewrite Huse, Hurl, Hsecret.
  rewrite bool_decide_eq_true_2 by done.
  unfold Js.truthy. rewrite !bool_decide_eq_false_2 by done. cbn [negb andb].
  fold edgeUrl.
  unfold try_catch, mbind, M_bind, bind, emit. cbn [db queue trace app].
  rewrite Hfetch. cbn [negb db queue trace app]. done.
Qed.

Lemma edge_success_skips_queue_witness :
  let pub := Sample.publisher (PriceWebhook.FetchResponse true 200 (Some "ok")) in
  let message := webhook_message pub Sample.webhook_event Sample.webhook_payload in
  let '(result, w) :=
    invoke (PriceWebhook.handler (Sample.env 1000000) pub Sample.webhook_event)
           Sample.empty_db in
  result = Ok (mkResponse 200 (StatusBody "accepted"))
  ∧ fetches (trace w) = [("https://edge.example/broadcast/TOK", "Bearer s3cret", message)]
  ∧ queue_sends (trace w) = []
  ∧ queue w = [].
Proof.
  apply (edge_success_skips_queue (Sample.env 1000000)
           (Sample.publisher (PriceWebhook.FetchResponse true 200 (Some "ok")))
           Sample.webhook_event Sample.webhook_payload Sample.empty_db
           "https://edge.example" "s3cret" "19700101" 200 (Some "ok"));
    try reflexivity; discriminate.
Defined.

(** Engine fallback, when the queue takes the entry: with the edge engine
    configured, when the call to the edge worker throws or its response is
    not OK, the publisher sends the same message to the queue; the entry
    being accepted, the message is on the queue once and the answer is 200
    "accepted". *)
Theorem edge_failure_falls_back_to_queue env pub event payload d url secret date :
  Js.or (PriceWebhook.headers event !! "authorization")
        (PriceWebhook.headers event !! "Authorization")
    = Some ("Bearer " +:+ PriceWebhook.HeliusApiKey pub) →
  PriceWebhook.body event = PriceWebhook.Valid payload →
  PriceWebhook.dateStr pub (PriceWebhook.timestamp payload) = Some date →
  PriceWebhook.timeseries_fails pub = false →
  PriceWebhook.USE_EDGE_BROADCAST pub = Some "true" →
  PriceWebhook.EDGE_BROADCAST_URL pub = Some url → url ≠ "" →
  PriceWebhook.EDGE_BROADCAST_SECRET pub = Some secret → secret ≠ "" →
  let message := webhook_message pub event payload in
  let edgeUrl := url +:+ "/broadcast/" +:+ webhook_token event in
  edge_failed (PriceWebhook.fetch pub edgeUrl ("Bearer " +:+ secret) message) = true →
  PriceWebhook.sqs_send pub 0 = PriceWebhook.SqsSuccessful →
  let '(result, w) := invoke (PriceWebhook.handler env pub event) d in
  result = Ok (mkResponse 200 (StatusBody "accepted"))
  ∧ fetches (trace w) = [(edgeUrl, "Bearer " +:+ secret, message)]
  ∧ queue_sends (trace w) = [mkQueueBody (Some []) message]
  ∧ queue w = [mkQueueBody (Some []) message]
  ∧ db w = d.
Proof.
  intros Hauth Hbody Hdate Hts Huse Hurl Hurl' Hsecret Hsecret' message edgeUrl Hfail Hsqs.
  rewrite (webhook_reaches_broadcast env pub event payload d date Hauth Hbody Hdate Hts).
  fold message. set (w0 := mkWorld d [] _).
  destruct (broadcast_edge_failed pub (webhook_token event) message w0 url secret)
    as (tr & Hfetches & Hsends & ->); [done..|].
  rewrite broadcastViaSQS_accepted.
  - unfold w0. cbn [db queue trace].
    unfold fetches, queue_sends in *. rewrite !omap_app, Hfetches, Hsends. done.
  - unfold w0. cbn [db queue trace].
    rewrite (sends_so_far_none ([_] ++ tr)); [done|].
    unfold queue_sends in *. by rewrite omap_app, Hsends.
Qed.

Lemma edge_failure_falls_back_to_queue_witness :
  let pub := Sample.publisher (PriceWebhook.FetchResponse false 503 (Some "unavailable")) in
  let message := webhook_message pub Sample.webhook_event Sample.webhook_payload in
  let '(result, w) :=
    invoke (PriceWebhook.handler (Sample.env 1000000) pub Sample.webhook_event)
           Sample.empty_db in
  result = Ok (mkResponse 200 (StatusBody "accepted"))
  ∧ fetches (trace w) = [("https://edge.example/broadcast/TOK", "Bearer s3cret", message)]
  ∧ queue_sends (trace w) = [mkQueueBody (Some []) message]
  ∧ queue w = [mkQueueBody (Some []) message]
  ∧ db w = Sample.empty_db.
Proof.
  apply (edge_failure_falls_back_to_queue (Sample.env 1000000)
           (Sample.publisher (PriceWebhook.FetchResponse false 503 (Some "unavailable")))
           Sample.webhook_event Sample.webhook_payload Sample.empty_db
           "https://edge.example" "s3cret" "19700101");
    try reflexivity; discriminate.
Defined.

(** Unless the flag is the text [true] and both the URL and the secret are
    set, the edge worker is never called: the message goes straight to the
    queue, and is on it when the queue takes the entry. *)
Theorem queue_engine_when_edge_not_configured env pub event payload d date :
  Js.or (PriceWebhook.headers event !! "authorization")
        (PriceWebhook.headers event !! "Authorization")
    = Some ("Bearer " +:+ PriceWebhook.HeliusApiKey pub) →
  PriceWebhook.body event = PriceWebhook.Valid payload →
  PriceWebhook.dateStr pub (PriceWebhook.timestamp payload) = Some date →
  PriceWebhook.timeseries_fails pub = false →
  PriceWebhook.USE_EDGE_BROADCAST pub ≠ Some "true"
  ∨ Js.truthy (PriceWebhook.EDGE_BROADCAST_URL pub) = false
  ∨ Js.truthy (PriceWebhook.EDGE_BROADCAST_SECRET pub) = false →
  PriceWebhook.sqs_send pub 0 = PriceWebhook.SqsSuccessful →
  let '(result, w) := invoke (PriceWebhook.handler env pub event) d in
  result = Ok (mkResponse 200 (StatusBody "accepted"))
  ∧ fetches (trace w) = []
  ∧ queue w = [mkQueueBody (Some []) (webhook_message pub event payload)].
Proof.
  intros Hauth Hbody Hdate Hts Hconfig Hsqs.
  rewrite (webhook_reaches_broadcast env pub event payload d date Hauth Hbody Hdate Hts).
  set (w1 := mkWorld d [] _).
  assert (PriceWebhook.broadcast pub (webhook_token event) (webhook_message pub event payload) w1
          = PriceWebhook.broadcastViaSQS pub (webhook_message pub event payload) w1) as ->.
  { unfold PriceWebhook.broadcast.
    destruct (PriceWebhook.EDGE_BROADCAST_URL pub) as [url|];
      destruct (PriceWebhook.EDGE_BROADCAST_SECRET pub) as [secret|]; try reflexivity.
    destruct Hconfig as [Hflag|[Hurl|Hsecret]].
    - by rewrite (bool_decide_eq_false_2 _ Hflag).
    - rewrite Hurl. by rewrite andb_false_r.
    - rewrite Hsecret. by rewrite andb_false_r. }
  rewrite broadcastViaSQS_accepted by done. done.
Qed.

Lemma queue_engine_witness :
  let pub := Sample.publisher_with (Some "TRUE") PriceWebhook.FetchThrew
               (λ _, PriceWebhook.SqsSuccessful) in
  let '(result, w) :=
    invoke (PriceWebhook.handler (Sample.env 1000000) pub Sample.webhook_event)
           Sample.empty_db in
  result = Ok (mkResponse 200 (StatusBody "accepted"))
  ∧ fetches (trace w) = []
  ∧ queue w
    = [mkQueueBody (Some []) (webhook_message pub Sample.webhook_event Sample.webhook_payload)].
Proof.
  apply (queue_engine_when_edge_not_configured (Sample.env 1000000)
           (Sample.publisher_with (Some "TRUE") PriceWebhook.FetchThrew
              (λ _, PriceWebhook.SqsSuccessful))
           Sample.webhook_event Sample.webhook_payload Sample.empty_db "19700101");
    try reflexivity.
  left. discriminate.
Defined.

(** The fallback is attempted twice when the edge response is not OK and
    the first send to the queue throws: the failure inside the [try] block
    lands in the [catch], which sends again. When the second send is
    accepted, the message is on the queue once and the answer is 200. *)
Theorem fallback_send_is_retried_once env pub event payload d url secret date status text :
  Js.or (PriceWebhook.headers event !! "authorization")
        (PriceWebhook.headers event !! "Authorization")
    = Some ("Bearer " +:+ PriceWebhook.HeliusApiKey pub) →
  PriceWebhook.body event = PriceWebhook.Valid payload →
  PriceWebhook.dateStr pub (PriceWebhook.timestamp payload) = Some date →
  PriceWebhook.timeseries_fails pub = false →
  PriceWebhook.USE_EDGE_BROADCAST pub = Some "true" →
  PriceWebhook.EDGE_BROADCAST_URL pub = Some url → url ≠ "" →
  PriceWebhook.EDGE_BROADCAST_SECRET pub = Some secret → secret ≠ "" →
  let message := webhook_message pub event payload in
  let edgeUrl := url +:+ "/broadcast/" +:+ webhook_token event in
  PriceWebhook.fetch pub edgeUrl ("Bearer " +:+ secret) message
    = PriceWebhook.FetchResponse false status (Some text) →
  PriceWebhook.sqs_send pub 0 = PriceWebhook.SqsThrew →
  PriceWebhook.sqs_send pub 1 = PriceWebhook.SqsSuccessful →
  let '(result, w) := invoke (PriceWebhook.handler env pub event) d in
  result = Ok (mkResponse 200 (StatusBody "accepted"))
  ∧ queue_sends (trace w)
    = [mkQueueBody (Some []) message; mkQueueBody (Some []) message]
  ∧ queue w = [mkQueueBody (Some []) message].
Proof.
  intros Hauth Hbody Hdate Hts Huse Hurl Hurl' Hsecret Hsecret' message edgeUrl Hfetch Hs0 Hs1.
  rewrite (webhook_reaches_broadcast env pub event payload d date Hauth Hbody Hdate Hts).
  fold message. unfold PriceWebhook.broadcast. rewrite Huse, Hurl, Hsecret.
  rewrite bool_decide_eq_true_2 by done.
  unfold Js.truthy. rewrite !bool_decide_eq_false_2 by done. cbn [negb andb].
  fold edgeUrl.
  unfold try_catch, mbind, M_bind, bind, emit. cbn [db queue trace app].
  rewrite Hfetch. cbn [negb db queue trace app].
  set (w1 := mkWorld d [] _).
  rewrite (broadcastViaSQS_refused pub message w1) by exact Hs0.
  unfold w1. cbn [db queue trace app].
  set (w2 := mkWorld d [] _).
  rewrite (broadcastViaSQS_accepted pub message w2) by exact Hs1.
  unfold w2. cbn [db queue trace app]. done.
Qed.

Lemma fallback_send_is_retried_once_witness :
  let pub := Sample.publisher_with (Some "true")
               (PriceWebhook.FetchResponse false 502 (Some "bad gateway"))
               (λ n, if bool_decide (n = 0%nat) then PriceWebhook.SqsThrew
                     else PriceWebhook.SqsSuccessful) in
  let message := webhook_message pub Sample.webhook_event Sample.webhook_payload in
  let '(result, w) :=
    invoke (PriceWebhook.handler (Sample.env 1000000) pub Sample.webhook_event)
           Sample.empty_db in
  result = Ok (mkResponse 200 (StatusBody "accepted"))
  ∧ queue_sends (trace w)
    = [mkQueueBody (Some []) message; mkQueueBody (Some []) message]
  ∧ queue w = [mkQueueBody (Some []) message].
Proof.
  apply (fallback_send_is_retried_once (Sample.env 1000000)
           (Sample.publisher_with (Some "true")
              (PriceWebhook.FetchResponse false 502 (Some "bad gateway"))
              (λ n, if bool_decide (n = 0%nat) then PriceWebhook.SqsThrew
                    else PriceWebhook.SqsSuccessful))
           Sample.webhook_event Sample.webhook_payload Sample.empty_db
           "https://edge.example" "s3cret" "19700101" 502 "bad gateway");
    try reflexivity; discriminate.
Defined.

(** When the edge call fails and every send to the queue throws, the
    webhook is answered 500 and the message is on no queue. *)
Theorem webhook_fails_when_both_engines_fail env pub event payload d url secret :
  Js.or (PriceWebhook.headers event !! "authorization")
        (PriceWebhook.headers event !! "Authorization")
    = Some ("Bearer " +:+ PriceWebhook.HeliusApiKey pub) →
  PriceWebhook.body event = PriceWebhook.Valid payload →
  PriceWebhook.timeseries_fails pub = false →
  PriceWebhook.USE_EDGE_BROADCAST pub = Some "true" →
  PriceWebhook.EDGE_BROADCAST_URL pub = Some url → url ≠ "" →
  PriceWebhook.EDGE_BROADCAST_SECRET pub = Some secret → secret ≠ "" →
  edge_failed (PriceWebhook.fetch pub (url +:+ "/broadcast/" +:+ webhook_token event)
                 ("Bearer " +:+ secret) (webhook_message pub event payload)) = true →
  (∀ n, PriceWebhook.sqs_send pub n = PriceWebhook.SqsThrew) →
  let '(result, w) := invoke (PriceWebhook.handler env pub event) d in
  result = Ok (mkResponse 500 (ErrorBody "Internal server error"))
  ∧ queue w = []
  ∧ db w = d.
Proof.
  intros Hauth Hbody Hts Huse Hurl Hurl' Hsecret Hsecret' Hfail Hsqs.
  destruct (PriceWebhook.dateStr pub (PriceWebhook.timestamp payload)) as [date|] eqn:Hdate;
    [|by rewrite (webhook_invalid_date env pub event payload d Hauth Hbody Hdate)].
  rewrite (webhook_reaches_broadcast env pub event payload d date Hauth Hbody Hdate Hts).
  unfold PriceWebhook.broadcast. rewrite Huse, Hurl, Hsecret.
  rewrite bool_decide_eq_true_2 by done.
  unfold Js.truthy. rewrite !bool_decide_eq_false_2 by done. cbn [negb andb].
  unfold try_catch, mbind, M_bind, bind, emit, throw. cbn [db queue trace app].
  destruct (PriceWebhook.fetch pub _ _ _) as [|ok status [text|]];
    simpl in Hfail; [|apply negb_true_iff in Hfail; subst ok; cbn [negb]..].
  all: cbn [db queue trace app].
  all: repeat (rewrite broadcastViaSQS_refused by apply Hsqs; cbn [db queue trace app]).
  all: done.
Qed.

Lemma webhook_fails_when_both_engines_fail_witness :
  let pub := Sample.publisher_with (Some "true") PriceWebhook.FetchThrew
               (λ _, PriceWebhook.SqsThrew) in
  let '(result, w) :=
    invoke (PriceWebhook.handler (Sample.env 1000000) pub Sample.webhook_event)
           Sample.empty_db in
  result = Ok (mkResponse 500 (ErrorBody "Internal server error"))
  ∧ queue w = []
  ∧ db w = Sample.empty_db.
Proof.
  apply (webhook_fails_when_both_engines_fail (Sample.env 1000000)
           (Sample.publisher_with (Some "true") PriceWebhook.FetchThrew
              (λ _, PriceWebhook.SqsThrew))
           Sample.webhook_event Sample.webhook_payload Sample.empty_db
           "https://edge.example" "s3cret");
    try reflexivity; discriminate.
Defined.
(** ** From the publisher to the worker *)

Lemma broadcast_queue pub token message w b :
  b ∈ queue (PriceWebhook.broadcast pub token message w).2 →
  b ∈ queue w ∨ b = mkQueueBody (Some []) message.
Proof.
  unfold PriceWebhook.broadcast, PriceWebhook.broadcastViaSQS, try_catch, mbind, M_bind,
    bind, emit, throw.
  intros Hb. repeat case_match; simplify_eq; cbn [snd db queue trace] in Hb.
  all: repeat (apply elem_of_app in Hb as [Hb|Hb]); auto.
  all: apply list_elem_of_singleton in Hb; auto.
Qed.

(** Whatever the webhook and its outcome, an entry the publisher leaves on
    the queue carries the broadcast message of a valid payload and an empty
    list of connection ids. *)
Lemma publisher_queue env pub event d b :
  b ∈ queue (invoke (PriceWebhook.handler env pub event) d).2 →
  ∃ payload,
    PriceWebhook.body event = PriceWebhook.Valid payload
    ∧ b = mkQueueBody (Some []) (webhook_message pub event payload).
Proof.
  unfold PriceWebhook.handler, invoke.
  unfold try_catch at 1. unfold mbind, M_bind, bind, emit, throw, mret, M_ret, ret.
  destruct (negb _); [by intros ?%elem_of_nil|].
  destruct (PriceWebhook.body event) as [| |payload]; [by intros ?%elem_of_nil..|].
  cbn beta iota.
  destruct (PriceWebhook.dateStr pub _) as [date|]; [|by intros ?%elem_of_nil].
  cbn beta iota. cbn [db queue trace].
  destruct (PriceWebhook.timeseries_fails pub); [by intros ?%elem_of_nil|].
  cbn beta iota. cbn [db queue trace].
  fold (webhook_token event). fold (webhook_message pub event payload).
  pose proof (broadcast_queue pub (webhook_token event) (webhook_message pub event payload)
                (mkWorld d [] ([] ++ [TimeSeriesPut (timeseries_item env pub event payload date)]))
                b) as Hq.
  fold (timeseries_item env pub event payload date).
  destruct (PriceWebhook.broadcast _ _ _ _) as [[[]|e] w]; cbn [snd db queue trace] in *.
  all: try case_bool_decide; cbn [snd db queue trace].
  all: intros Hb; destruct (Hq Hb) as [Hnil%elem_of_nil| ->]; [done|]; by exists payload.
Qed.

(** End to end on the queue engine: whatever webhook put it there, an entry
    of the broadcast queue is never delivered. The publisher leaves the
    list of connection ids empty, so the worker queries the registry, and
    that query never succeeds: the worker sends nothing and fails the
    batch. *)
Theorem queued_update_is_never_delivered env pub event d b worker_env registry :
  b ∈ queue (invoke (PriceWebhook.handler env pub event) d).2 →
  ∃ e w,
    invoke (BroadcastWorker.handler worker_env [BroadcastWorker.mkRecord (Some b)]) registry
    = (Thrown e, w)
    ∧ posts (trace w) = []
    ∧ db w = registry.
Proof.
  intros (payload & _ & ->)%publisher_queue.
  set (b := mkQueueBody (Some []) (webhook_message pub event payload)).
  rewrite (worker_query_run worker_env (BroadcastWorker.mkRecord (Some b)) [] b
             (webhook_token event) registry);
    [|reflexivity|by right|reflexivity].
  eexists _, _. split; [reflexivity|]. by split.
Qed.

Lemma queued_update_is_never_delivered_witness :
  let pub := Sample.publisher PriceWebhook.FetchThrew in
  let b := mkQueueBody (Some []) (webhook_message pub Sample.webhook_event Sample.webhook_payload) in
  b ∈ queue (invoke (PriceWebhook.handler (Sample.env 1000000) pub Sample.webhook_event)
                    Sample.empty_db).2
  ∧ ∃ e w,
      invoke (BroadcastWorker.handler (Sample.env 1003000) [BroadcastWorker.mkRecord (Some b)])
             Sample.two_subscribers_db
      = (Thrown e, w)
      ∧ posts (trace w) = []
      ∧ db w = Sample.two_subscribers_db.
Proof.
  assert (mkQueueBody (Some [])
            (webhook_message (Sample.publisher PriceWebhook.FetchThrew) Sample.webhook_event
               Sample.webhook_payload)
          ∈ queue (invoke (PriceWebhook.handler (Sample.env 1000000)
                             (Sample.publisher PriceWebhook.FetchThrew) Sample.webhook_event)
                          Sample.empty_db).2) as Hin.
  { vm_compute. apply list_elem_of_here. }
  split; [exact Hin|].
  exact (queued_update_is_never_delivered (Sample.env 1000000)
           (Sample.publisher PriceWebhook.FetchThrew) Sample.webhook_event Sample.empty_db _
           (Sample.env 1003000) Sample.two_subscribers_db Hin).
Defined.

(** ** Edge worker and room: the other paths *)

(** The welcome message of a new connection. *)
Definition welcome (env : Edge.Env) : Js.Json :=
  Js.JObj {[ "type" := Js.JStr "connected";
             "connectionId" := Js.JStr (Edge.randomUUID env);
             "timestamp" := Js.JNum (pretty (Edge.now env)) ]}.

(** The calls to durable objects, in order: name, path and method. *)
Definition room_calls (effects : list Edge.Effect) : list (string * string * string) :=
  omap (λ e, match e with
             | Edge.RoomFetch name pathname method => Some (name, pathname, method)
             | _ => None
             end) effects.

(** The sockets closed, in order. *)
Definition socket_closes (effects : list Edge.Effect) : list nat :=
  omap (λ e, match e with Edge.SocketClose socket => Some socket | _ => None end) effects.

(** The connection has been silent for more than five minutes. *)
Definition stale (env : Edge.Env) (info : Edge.WebSocketInfo) : bool :=
  bool_decide (Edge.now env - Edge.lastPing info > 5 * 60 * 1000)%Z.

Lemma prefix_cons c s1 a s2 :
  String.prefix (String c s1) (String a s2) = true → c = a ∧ String.prefix s1 s2 = true.
Proof.
  change (String.prefix (String c s1) (String a s2))
    with (match Ascii.ascii_dec c a with
          | left _ => String.prefix s1 s2
          | right _ => false
          end).
  destruct (Ascii.ascii_dec c a) as [->|]; [done|discriminate].
Qed.

(** A path under [/ws/] is not a publish path. *)
Lemma ws_path p :
  Js.startsWith p "/ws/" = true →
  Js.startsWith p "/broadcast/" = false ∧ p ≠ "/broadcast".
Proof.
  unfold Js.startsWith. intros H.
  split; [|intros Heq; subst p; vm_compute in H; discriminate H].
  destruct p as [|a p]; [vm_compute in H; discriminate H|].
  apply prefix_cons in H as [<- H].
  destruct p as [|b p]; [vm_compute in H; discriminate H|].
  apply prefix_cons in H as [<- H]. reflexivity.
Qed.

(** The loop of the clean-up: the stale connections are collected and
    their sockets closed, in the order of the map. *)
Lemma close_stale_eq env entries :
  Edge.close_stale env entries
  = ((filter (λ kv, stale env kv.2 = true) entries).*1,
     (λ kv, Edge.SocketClose (Edge.socket kv.2))
       <$> filter (λ kv, stale env kv.2 = true) entries).
Proof.
  induction entries as [|[id info] entries IH]; [done|].
  cbn [Edge.close_stale]. rewrite IH, filter_cons. cbn [snd].
  fold (stale env info). destruct (stale env info); by destruct (decide _).
Qed.

Lemma closes_only {A} (f : A → nat) (l : list A) (log : list Edge.Effect) :
  (∀ e, e ∈ log → ∃ line, e = Edge.ConsoleLog line) →
  socket_closes (((λ x, Edge.SocketClose (f x)) <$> l) ++ log) = f <$> l
  ∧ socket_sends (((λ x, Edge.SocketClose (f x)) <$> l) ++ log) = []
  ∧ room_calls (((λ x, Edge.SocketClose (f x)) <$> l) ++ log) = [].
Proof.
  intros Hlog. induction l as [|x l (IH1 & IH2 & IH3)].
  - cbn [fmap list_fmap app]. induction log as [|e log IH]; [done|].
    destruct (Hlog e) as [line ->]; [left|].
    apply IH. intros e' He'. apply Hlog. by right.
  - split_and!; [|exact IH2|exact IH3].
    exact (f_equal (cons (f x)) IH1).
Qed.

Lemma cleanup_run env room :
  ∃ effects,
    Edge.cleanupStaleConnections env room
    = (Edge.mkRoom (filter (λ kv, stale env kv.2 = false) (Edge.connections room))
                   (Edge.lastActivity room), effects)
    ∧ socket_closes effects
      = (λ kv, Edge.socket kv.2)
          <$> filter (λ kv, stale env kv.2 = true) (map_to_list (Edge.connections room))
    ∧ socket_sends effects = []
    ∧ room_calls effects = [].
Proof.
  unfold Edge.cleanupStaleConnections. rewrite close_stale_eq.
  set (entries := filter _ (map_to_list (Edge.connections room))).
  eexists. split; [|apply (closes_only (λ kv, Edge.socket kv.2))].
  - f_equal. f_equal. apply map_eq. intros id. unfold Edge.delete_all.
    rewrite lookup_delete_all. destruct (decide (id ∈ entries.*1)) as [Hin|Hnin].
    + apply list_elem_of_fmap in Hin as ([id' info] & -> & Hin). cbn [fst].
      apply list_elem_of_filter in Hin as [Hstale Hin]. cbn [snd] in Hstale.
      apply elem_of_map_to_list in Hin.
      symmetry. apply map_lookup_filter_None. right. intros info' Hinfo'. cbn [snd].
      simplify_eq. congruence.
    + destruct (Edge.connections room !! id) as [info|] eqn:Hid.
      * symmetry. apply map_lookup_filter_Some. split; [done|]. cbn [snd].
        destruct (stale env info) eqn:Hstale; [|done].
        exfalso. apply Hnin. apply list_elem_of_fmap. exists (id, info). split; [done|].
        apply list_elem_of_filter. split; [done|]. by apply elem_of_map_to_list.
      * symmetry. apply map_lookup_filter_None. by left.
  - intros e He. destruct (entries.*1); [by apply elem_of_nil in He|].
    apply list_elem_of_singleton in He as ->. by eexists.
Qed.

(** [cleanupStaleConnections] closes the sockets of the connections silent
    for more than five minutes and drops exactly those connections; every
    other connection stays as it is, and nothing is sent. *)
Theorem cleanup_removes_exactly_stale env room :
  let '(room', effects) := Edge.cleanupStaleConnections env room in
  (∀ id,
     Edge.connections room' !! id
     = info ← Edge.connections room !! id;
       if bool_decide (Edge.now env - Edge.lastPing info > 300000)%Z then None else Some info)
  ∧ Edge.lastActivity room' = Edge.lastActivity room
  ∧ socket_closes effects
    = (λ kv, Edge.socket kv.2)
        <$> filter (λ kv, (Edge.now env - Edge.lastPing kv.2 > 300000)%Z)
                   (map_to_list (Edge.connections room))
  ∧ socket_sends effects = [].
Proof.
  destruct (cleanup_run env room) as (effects & -> & Hcloses & Hsends & _).
  cbn [Edge.connections Edge.lastActivity]. split_and!; [|done| |done].
  - intros id. rewrite map_lookup_filter.
    destruct (Edge.connections room !! id) as [info|]; [|done]. cbn.
    unfold stale. change (5 * 60 * 1000)%Z with 300000%Z.
    by destruct (bool_decide (Edge.now env - Edge.lastPing info > 300000)%Z) eqn:E;
      [rewrite option_guard_False|rewrite option_guard_True].
  - rewrite Hcloses. f_equal. apply list_filter_iff. intros [id info]. cbn [snd].
    unfold stale. change (5 * 60 * 1000)%Z with 300000%Z. by rewrite bool_decide_eq_true.
Qed.

(** The sample room at time 300150: the connection last heard of at 100 is
    closed and dropped, the one last heard of at 200 stays. *)
Example cleanup_sample :
  Edge.cleanupStaleConnections (Sample.edge_env 300150) Sample.edge_room
  = (Edge.mkRoom {[ "uuid-2" := Edge.mkInfo 2 200 200 ]} 200,
     [Edge.SocketClose 1; Edge.ConsoleLog "Cleaned up 1 stale connections"]).
Proof. vm_compute. reflexivity. Qed.

(** The gates of the WebSocket route. A [/ws/<token>] request that does not
    ask for an upgrade is answered 426; one that does, from an origin
    outside the allowed list, 403. In both cases no durable object is
    called and no room changes. *)
Theorem ws_route_gates env request rooms token :
  Js.startsWith (Edge.pathname request) "/ws/" = true →
  Js.split "/" (Edge.pathname request) !! 2%nat = Some token →
  token ≠ "" →
  Edge.headers request !! "Upgrade" ≠ Some "websocket"
  ∨ (∃ origin, Edge.headers request !! "Origin" = Some origin
               ∧ origin ≠ ""
               ∧ origin ∉ Js.split "," (Edge.ALLOWED_ORIGINS env)) →
  Edge.fetch env request rooms
  = (Edge.Responded
       (if bool_decide (Edge.headers request !! "Upgrade" = Some "websocket")
        then Edge.mkResponse 403 (Edge.Text "Origin not allowed")
        else Edge.mkResponse 426 (Edge.Text "Expected WebSocket")),
     rooms, []).
Proof.
  intros Hpath Htoken Hne Hgate. unfold Edge.fetch.
  destruct (ws_path _ Hpath) as [-> _]. rewrite Hpath, Htoken. cbn [andb].
  unfold Js.truthy at 1. rewrite (bool_decide_eq_false_2 (token = "")) by done. cbn [negb].
  destruct (decide (Edge.headers request !! "Upgrade" = Some "websocket")) as [Hup|Hup].
  - rewrite !(bool_decide_eq_true_2 _ Hup). cbn [negb].
    destruct Hgate as [?|(origin & Horigin & Hne' & Hnot)]; [done|].
    rewrite Horigin. unfold Js.truthy. cbn [default].
    rewrite (bool_decide_eq_false_2 (origin = "")) by done.
    by rewrite (bool_decide_eq_false_2 _ Hnot).
  - by rewrite !(bool_decide_eq_false_2 _ Hup).
Qed.

Lemma ws_route_gates_witness :
  Edge.fetch (Sample.edge_env 5000)
    (Edge.mkRequest "/ws/TOK" "GET"
       {[ "Upgrade" := "websocket"; "Origin" := "https://evil.example" ]} None)
    {[ "TOK" := Sample.edge_room ]}
  = (Edge.Responded (Edge.mkResponse 403 (Edge.Text "Origin not allowed")),
     {[ "TOK" := Sample.edge_room ]}, []).
Proof.
  rewrite (ws_route_gates (Sample.edge_env 5000)
             (Edge.mkRequest "/ws/TOK" "GET"
                {[ "Upgrade" := "websocket"; "Origin" := "https://evil.example" ]} None)
             {[ "TOK" := Sample.edge_room ]} "TOK");
    [reflexivity|reflexivity|reflexivity|discriminate|].
  right. exists "https://evil.example". split_and!; [reflexivity|discriminate|].
  vm_compute. intros [H|H]%elem_of_cons; [discriminate H|by apply elem_of_nil in H].
Defined.

(** An authorized publish whose call to the durable object throws is
    answered 500 by the worker, which logs the error; no room changes and
    no socket is touched. *)
Theorem publish_room_failure env request rooms token message :
  Js.startsWith (Edge.pathname request) "/broadcast/" = true →
  Edge.method request = "POST" →
  Js.split "/" (Edge.pathname request) !! 2%nat = Some token →
  token ≠ "" →
  Edge.headers request !! "Authorization" = Some ("Bearer " +:+ Edge.WEBHOOK_SECRET env) →
  Edge.json request = Some message →
  Edge.room_fails env token = true →
  Edge.fetch env request rooms
  = (Edge.Responded (Edge.mkResponse 500 (Edge.Text "Internal error")), rooms,
     [Edge.RoomFetch token "/broadcast" "POST"; Edge.ConsoleError "Broadcast error:"]).
Proof.
  intros Hpath Hmethod Htoken Hne Hauth Hjson Hroom. unfold Edge.fetch.
  rewrite Hpath, Hmethod, Htoken, Hauth, Hjson. simpl.
  rewrite (bool_decide_eq_false_2 (token = "")) by done. simpl.
  rewrite bool_decide_eq_true_2 by done. simpl.
  unfold Edge.call_room. rewrite Hroom. reflexivity.
Qed.

Lemma publish_room_failure_witness :
  let env := Edge.mkEnv "s3cret" "https://app.example" (λ _ _, false) (λ _, false)
                        (λ _, true) 5000 "uuid-3" false 3%nat in
  Edge.fetch env (Sample.publish_request "Bearer s3cret") {[ "TOK" := Sample.edge_room ]}
  = (Edge.Responded (Edge.mkResponse 500 (Edge.Text "Internal error")),
     {[ "TOK" := Sample.edge_room ]},
     [Edge.RoomFetch "TOK" "/broadcast" "POST"; Edge.ConsoleError "Broadcast error:"]).
Proof.
  apply (publish_room_failure
           (Edge.mkEnv "s3cret" "https://app.example" (λ _ _, false) (λ _, false)
                       (λ _, true) 5000 "uuid-3" false 3%nat)
           (Sample.publish_request "Bearer s3cret") {[ "TOK" := Sample.edge_room ]}
           "TOK" Sample.price_update); try reflexivity.
  discriminate.
Defined.

(** What a room does on a request that is not its broadcast request: it
    calls no other room, and the only send it can make is the welcome
    message to the socket it has just created. *)
Lemma room_fetch_other env request room :
  Edge.pathname request ≠ "/broadcast" →
  let '(_, _, effects) := Edge.room_fetch env request room in
  room_calls effects = []
  ∧ (socket_sends effects = [] ∨ socket_sends effects = [(Edge.new_socket env, welcome env)]).
Proof.
  intros Hpath. unfold Edge.room_fetch.
  rewrite (bool_decide_eq_false_2 _ Hpath). cbn [andb].
  destruct (bool_decide (Edge.headers request !! "Upgrade" = Some "websocket")); [|by split; [|left]].
  fold (welcome env).
  destruct (Edge.send_throws env (Edge.new_socket env) (welcome env)); [by split; [|right]|].
  destruct (Edge.cleanup_drawn env); [|by split; [|right]].
  destruct (cleanup_run env
              (Edge.mkRoom
                 (<[Edge.randomUUID env
                    := Edge.mkInfo (Edge.new_socket env) (Edge.now env) (Edge.now env)]>
                    (Edge.connections room))
                 (Edge.now env))) as (effects & Hrun & _ & Hsends & Hcalls).
  cbn [Edge.connections Edge.lastActivity] in Hrun |- *. rewrite Hrun.
  split; [exact Hcalls|]. right. exact (f_equal (cons _) Hsends).
Qed.

(** A request that is answered without a call to a room. *)
Ltac edge_quiet := split; [intros ? ?; apply not_elem_of_nil | by left].

(** Without the webhook secret, no request of any kind makes a room
    broadcast: the worker never sends a [/broadcast] request to a durable
    object, and the only message a socket can receive is the welcome sent to
    the socket a WebSocket upgrade has just created. *)
Theorem broadcast_requires_secret env request rooms :
  Edge.headers request !! "Authorization" ≠ Some ("Bearer " +:+ Edge.WEBHOOK_SECRET env) →
  let '(_, _, effects) := Edge.fetch env request rooms in
  (∀ name method, ¬ ((name, "/broadcast", method) ∈ room_calls effects))
  ∧ (socket_sends effects = [] ∨ socket_sends effects = [(Edge.new_socket env, welcome env)]).
Proof.
  intros Hauth. unfold Edge.fetch.
  destruct (Js.startsWith (Edge.pathname request) "/broadcast/"
            && bool_decide (Edge.method request = "POST")).
  { destruct (Js.split "/" (Edge.pathname request) !! 2%nat) as [token|]; [|edge_quiet].
    destruct (negb (Js.truthy (Some token))); [edge_quiet|].
    rewrite bool_decide_eq_false_2 by exact Hauth. edge_quiet. }
  destruct (Js.startsWith (Edge.pathname request) "/ws/") eqn:Hws.
  2: { destruct (bool_decide (Edge.pathname request = "/health")); edge_quiet. }
  destruct (Js.split "/" (Edge.pathname request) !! 2%nat) as [token|]; [|edge_quiet].
  destruct (negb (Js.truthy (Some token))); [edge_quiet|].
  destruct (negb (bool_decide (Edge.headers request !! "Upgrade" = Some "websocket")));
    [edge_quiet|].
  destruct (Js.truthy (Edge.headers request !! "Origin") && _); [edge_quiet|].
  destruct (ws_path _ Hws) as [_ Hpath].
  unfold Edge.call_room. destruct (Edge.room_fails env token).
  - split; [|by left]. intros name method [[=]|H]%elem_of_cons; [done|].
    by apply elem_of_nil in H.
  - pose proof (room_fetch_other env request
                  (default (Edge.mkRoom ∅ (Edge.now env)) (rooms !! token)) Hpath) as Hroom.
    destruct (Edge.room_fetch env request _) as [[outcome room'] effects].
    destruct Hroom as [Hcalls Hsends]. split.
    + intros name method Hin.
      change (room_calls (Edge.RoomFetch token (Edge.pathname request)
                            (Edge.method request) :: effects))
        with ((token, Edge.pathname request, Edge.method request) :: room_calls effects) in Hin.
      rewrite Hcalls in Hin. apply list_elem_of_singleton in Hin. by simplify_eq.
    + exact Hsends.
Qed.

Lemma broadcast_requires_secret_witness :
  let env := Sample.edge_env 5000 in
  let request := Edge.mkRequest "/ws/TOK" "GET" {[ "Upgrade" := "websocket" ]} None in
  let '(_, _, effects) := Edge.fetch env request {[ "TOK" := Sample.edge_room ]} in
  (∀ name method, ¬ ((name, "/broadcast", method) ∈ room_calls effects))
  ∧ (socket_sends effects = [] ∨ socket_sends effects = [(Edge.new_socket env, welcome env)]).
Proof.
  apply (broadcast_requires_secret (Sample.edge_env 5000)
           (Edge.mkRequest "/ws/TOK" "GET" {[ "Upgrade" := "websocket" ]} None)
           {[ "TOK" := Sample.edge_room ]}).
  discriminate.
Defined.

(** The request of the witness, evaluated: the upgrade is accepted and the
    welcome is the only message sent; the sockets already in the room
    receive nothing. *)
Example upgrade_sample :
  let env := Sample.edge_env 5000 in
  let request := Edge.mkRequest "/ws/TOK" "GET" {[ "Upgrade" := "websocket" ]} None in
  let '(outcome, rooms', effects) := Edge.fetch env request {[ "TOK" := Sample.edge_room ]} in
  outcome = Edge.Responded (Edge.mkResponse 101 Edge.Empty)
  ∧ effects = [Edge.RoomFetch "TOK" "/ws/TOK" "GET"; Edge.SocketSend 3 (welcome env)]
  ∧ rooms' = {[ "TOK" := Edge.mkRoom {[ "uuid-1" := Edge.mkInfo 1 100 100;
                                         "uuid-2" := Edge.mkInfo 2 200 200;
                                         "uuid-3" := Edge.mkInfo 3 5000 5000 ]} 5000 ]}.
Proof. vm_compute. repeat split. Qed.

(** ** The store's expressions, on the sample tables *)

(** The two expressions of the handlers are refused; the same expressions
    with the attribute behind a placeholder are accepted, and the escaped
    filter selects the rows whose [ttl] is below [:now]. *)
Example escaped_expressions_sample :
  let values : Item := {[ ":now" := AttrN 5000 ]} in
  let escaped :=
    And (Less (NamePlaceholder "#ttl") (ValuePlaceholder ":now"))
        (AttributeExists (NamePlaceholder "#ttl")) in
  accepted ∅ values Sweeper.filterExpression = false
  ∧ accepted ∅ {[ ":token" := AttrS "TOK" ]} BroadcastWorker.keyConditionExpression = false
  ∧ accepted {[ "#ttl" := "ttl" ]} values escaped = true
  ∧ accepted {[ "#token" := "token" ]} {[ ":token" := AttrS "TOK" ]}
             (Equal (NamePlaceholder "#token") (ValuePlaceholder ":token")) = true
  ∧ scan_page PriceConnectionsTable {[ "#ttl" := "ttl" ]} values escaped ["C1"; "C2"]
              Sample.sweep_db
    = [{[ "connectionId" := AttrS "C1"; "token" := AttrS "TOK"; "ttl" := AttrN 4600 ]}]
  ∧ select PriceConnectionsTable {[ "#token" := "token" ]} {[ ":token" := AttrS "TOK" ]}
           (Equal (NamePlaceholder "#token") (ValuePlaceholder ":token"))
           Sample.two_subscribers_db
    = query PriceConnectionsTable "token" "TOK" Sample.two_subscribers_db.
Proof. vm_compute. repeat split. Qed.
